(** * Kanban Status Updater: the synchronisation core of [src/main.ts]

    A shallow embedding of the plugin's board parser, column policy, sync
    engine and placement resolver, and the properties of the specification
    that are settled against it. *)

From Stdlib Require Import String Ascii NArith.
From stdpp Require Import gmap list.

Local Open Scope N_scope.
Local Open Scope list_scope.

(** ** JavaScript strings

    A JavaScript string is a sequence of UTF-16 code units; a code unit is a
    number below 65536, kept here as an [N].  Every character the program
    inspects (['#'], [' '], ['['], [']'], ['/'], the line terminators and the
    white space of [String.prototype.trim]) is a single code unit. *)

Abbreviation jsstring := (list N).

Fixpoint str (s : string) : jsstring :=
  match s with
  | EmptyString => []
  | String a r => N_of_ascii a :: str r
  end.

(** [WhiteSpace] and [LineTerminator] of ECMAScript: what [trim] removes. *)
Definition isLineTerminator (c : N) : bool :=
  (c =? 10) || (c =? 13) || (c =? 8232) || (c =? 8233).

Definition isWhiteSpace (c : N) : bool :=
  (c =? 9) || (c =? 11) || (c =? 12) || (c =? 32) || (c =? 160)
  || (c =? 5760) || ((8192 <=? c) && (c <=? 8202))
  || (c =? 8239) || (c =? 8287) || (c =? 12288) || (c =? 65279).

Definition isTrimmed (c : N) : bool := isWhiteSpace c || isLineTerminator c.

Fixpoint takeWhile {A} (p : A -> bool) (l : list A) : list A :=
  match l with
  | [] => []
  | x :: r => if p x then x :: takeWhile p r else []
  end.

Fixpoint dropWhile {A} (p : A -> bool) (l : list A) : list A :=
  match l with
  | [] => []
  | x :: r => if p x then dropWhile p r else l
  end.

(** [s.trim()] *)
Definition trimStart (s : jsstring) : jsstring := dropWhile isTrimmed s.
Definition trimEnd (s : jsstring) : jsstring := reverse (dropWhile isTrimmed (reverse s)).
Definition trim (s : jsstring) : jsstring := trimEnd (trimStart s).

(** [s.startsWith(p)], returning what follows the prefix. *)
Fixpoint stripPrefix (p s : jsstring) : option jsstring :=
  match p, s with
  | [], _ => Some s
  | a :: p', b :: s' => if a =? b then stripPrefix p' s' else None
  | _ :: _, [] => None
  end.

Definition startsWith (s p : jsstring) : bool :=
  match stripPrefix p s with Some _ => true | None => false end.

(** [s.endsWith(p)] *)
Definition endsWith (s p : jsstring) : bool := startsWith (reverse s) (reverse p).

(** [s.split(sep)] for a one-unit separator: never empty, [""] gives [[""]]. *)
Fixpoint split (sep : N) (s : jsstring) : list jsstring :=
  match s with
  | [] => [[]]
  | c :: r =>
      if c =? sep then [] :: split sep r
      else match split sep r with
           | l :: ls => (c :: l) :: ls
           | [] => [[c]]
           end
  end.

(** ** Board parser ([parseBoardContent], lines 83-101) *)

Record update := Update { linkPath : jsstring; columnName : jsstring }.

(** [line.match(/^## (.+)$/)]: the capture when the line matches.  Without
    the [m] flag [$] is the end of the line, and [.] takes no line
    terminator, so the line matches exactly when a non-empty rest without
    line terminators follows ["## "]; the capture is that rest. *)
Definition headingMatch (line : jsstring) : option jsstring :=
  match stripPrefix (str "## ") line with
  | Some rest =>
      if negb (bool_decide (rest = [])) && forallb (fun c => negb (isLineTerminator c)) rest
      then Some rest else None
  | None => None
  end.

Definition notBracket (c : N) : bool := negb (c =? 93).

(** The link pattern [\[\[([^\]]+)\]\]] anchored at the start of [s]: the
    greedy class takes the longest run without a closing bracket, and giving
    units back never helps, as the next unit must be a closing bracket. *)
Definition linkAt (s : jsstring) : option jsstring :=
  match stripPrefix (str "[[") s with
  | Some r =>
      let target := takeWhile notBracket r in
      if negb (bool_decide (target = [])) && startsWith (dropWhile notBracket r) (str "]]")
      then Some target else None
  | None => None
  end.

(** [line.match(/\[\[([^\]]+)\]\]/)]: the capture of the leftmost match. *)
Fixpoint linkMatch (line : jsstring) : option jsstring :=
  match line with
  | [] => None
  | _ :: rest =>
      match linkAt line with
      | Some target => Some target
      | None => linkMatch rest
      end
  end.

(** [if (currentColumn)]: [null] and the empty string are falsy. *)
Definition truthy (currentColumn : option jsstring) : bool :=
  match currentColumn with
  | Some (_ :: _) => true
  | _ => false
  end.

(** The body of the [for] loop over the lines, with [currentColumn] as the
    loop state; the result lists what [updates.push] appended, in order. *)
Fixpoint parseLines (currentColumn : option jsstring) (lines : list jsstring)
  : list update :=
  match lines with
  | [] => []
  | line :: rest =>
      match headingMatch line with
      | Some cap => parseLines (Some (trim cap)) rest
      | None =>
          if truthy currentColumn then
            match linkMatch line, currentColumn with
            | Some target, Some col => Update target col :: parseLines currentColumn rest
            | _, _ => parseLines currentColumn rest
            end
          else parseLines currentColumn rest
      end
  end.

Definition parseBoardContent (content : jsstring) : list update :=
  parseLines None (split 10 content).

(** ** Column policy ([QUADRANT_MAP], lines 16-21, and lines 108-109) *)

(** The values a frontmatter field or a property read can hold. *)
Inductive value :=
  | VUndefined
  | VNull
  | VBool (b : bool)
  | VNum (n : Z)
  | VStr (s : jsstring)
  | VArray (items : list jsstring)
  | VObject.                (* an object that is no array, such as a member of [Object.prototype] *)

(** [a === b] on these values; two arrays or objects are equal only as the
    same object, and the program compares with strings, booleans and
    [undefined] only. *)
Definition strictEq (a b : value) : bool :=
  match a, b with
  | VUndefined, VUndefined => true
  | VNull, VNull => true
  | VBool x, VBool y => bool_decide (x = y)
  | VNum x, VNum y => bool_decide (x = y)
  | VStr x, VStr y => bool_decide (x = y)
  | _, _ => false
  end.

(** [v ?? null] *)
Definition orNull (v : value) : value :=
  match v with VUndefined => VNull | _ => v end.

(** The four keys of the object literal, as the code units of the text
    between the quotes in the source file: a decorative symbol, then the
    ASCII name. *)
Definition key_Eliminate : jsstring := [226; 353; 170] ++ str " Eliminate (NI & NU)".
Definition key_Delegate : jsstring := [240; 376; 376; 160] ++ str " Delegate (NI & U)".
Definition key_Schedule : jsstring := [240; 376; 376; 161] ++ str " Schedule (I & NU)".
Definition key_DoFirst : jsstring := [240; 376; 8221; 180] ++ str " Do First (I & U)".

Record flags := Flags { urgent : bool; important : bool }.

Definition QUADRANT_MAP : list (jsstring * flags) :=
  [ (key_Eliminate, Flags false false);
    (key_Delegate,  Flags true  false);
    (key_Schedule,  Flags false true);
    (key_DoFirst,   Flags true  true) ].

(** [QUADRANT_MAP] is an object literal, so its prototype is
    [Object.prototype]; these are the property names found there. *)
Definition Object_prototype : list jsstring :=
  map str [ "constructor"; "hasOwnProperty"; "isPrototypeOf";
            "propertyIsEnumerable"; "toLocaleString"; "toString"; "valueOf";
            "__proto__"; "__defineGetter__"; "__defineSetter__";
            "__lookupGetter__"; "__lookupSetter__" ]%string.

(** A frontmatter record is a plain object, so its prototype is
    [Object.prototype] as well.  [fm[key]] gives the record's own property
    when it has one, else the member of [Object.prototype] of that name,
    else [undefined]. *)
Definition getProperty (fm : gmap jsstring value) (key : jsstring) : value :=
  match fm !! key with
  | Some x => x
  | None => if bool_decide (key ∈ Object_prototype) then VObject else VUndefined
  end.

(** [fm[key] = x], for the values the program assigns (a string, a boolean
    or [undefined]).  The name [__proto__] is an accessor on
    [Object.prototype]: unless the record has an own property of that name,
    the assignment runs the setter, which ignores such a value and stores
    nothing.  Every other name becomes, or stays, an own property. *)
Definition setProperty (key : jsstring) (x : value) (fm : gmap jsstring value)
  : gmap jsstring value :=
  if bool_decide (key = str "__proto__") && bool_decide (fm !! key = None) then fm
  else <[key := x]> fm.

(** What [QUADRANT_MAP[columnName]] evaluates to. *)
Inductive property :=
  | Own (q : flags)      (* one of the four entries *)
  | Inherited            (* a member of [Object.prototype] *)
  | Absent.              (* [undefined] *)

Fixpoint assoc {A} (k : jsstring) (l : list (jsstring * A)) : option A :=
  match l with
  | [] => None
  | (k', a) :: r => if bool_decide (k = k') then Some a else assoc k r
  end.

Definition QUADRANT_MAP_get (columnName : jsstring) : property :=
  match assoc columnName QUADRANT_MAP with
  | Some q => Own q
  | None => if bool_decide (columnName ∈ Object_prototype) then Inherited else Absent
  end.

(** [columnName in QUADRANT_MAP]: the [in] operator looks through the
    prototype chain. *)
Definition isQuadrant (columnName : jsstring) : bool :=
  match QUADRANT_MAP_get columnName with
  | Absent => false
  | _ => true
  end.

(** [q.urgent] and [q.important] for [q = QUADRANT_MAP[columnName]]: the
    members of [Object.prototype] have no such property. *)
Definition q_urgent (q : property) : value :=
  match q with Own f => VBool (urgent f) | _ => VUndefined end.
Definition q_important (q : property) : value :=
  match q with Own f => VBool (important f) | _ => VUndefined end.

(** [const status = isQuadrant ? 'backlog' : columnName] *)
Definition targetStatus (columnName : jsstring) : jsstring :=
  if isQuadrant columnName then str "backlog" else columnName.

Definition ARCHIVE_STATUSES : list jsstring := [str "done"; str "archive"].

Definition isArchiveStatus (status : jsstring) : bool :=
  bool_decide (status ∈ ARCHIVE_STATUSES).

(** ** The vault: the host's documents, as far as the plugin sees them *)

(** A call the plugin makes on the host, in the order made. *)
Inductive call :=
  | ProcessFrontMatter (file : N)
  | CreateFolder (path : jsstring)
  | RenameFile (file : N) (newPath : jsstring)
  | ConsoleError (notePath : jsstring).

Record Vault := MkVault {
  paths : gmap N jsstring;                       (* [file.path] of each [TFile] *)
  folders : gset jsstring;                       (* the folders' paths *)
  frontmatter : gmap N (gmap jsstring value);    (* the metadata record of a file *)
  text : gmap N jsstring;                        (* what [cachedRead] returns *)
  linkDest : gmap jsstring N;                    (* [getFirstLinkpathDest(link, '')] *)
  locked : gset N;                               (* files whose frontmatter the host cannot rewrite *)
  calls : list call                              (* the host calls made so far *)
}.

(** The metadata cache is taken to follow the stored frontmatter: what
    [getFileCache] gives for a file is its record in [frontmatter]. *)

Definition set_paths (f : gmap N jsstring -> gmap N jsstring) (v : Vault) : Vault :=
  MkVault (f (paths v)) (folders v) (frontmatter v) (text v) (linkDest v) (locked v) (calls v).
Definition set_folders (f : gset jsstring -> gset jsstring) (v : Vault) : Vault :=
  MkVault (paths v) (f (folders v)) (frontmatter v) (text v) (linkDest v) (locked v) (calls v).
Definition set_frontmatter
  (f : gmap N (gmap jsstring value) -> gmap N (gmap jsstring value)) (v : Vault) : Vault :=
  MkVault (paths v) (folders v) (f (frontmatter v)) (text v) (linkDest v) (locked v) (calls v).
Definition record (c : call) (v : Vault) : Vault :=
  MkVault (paths v) (folders v) (frontmatter v) (text v) (linkDest v) (locked v) (calls v ++ [c]).

(** [file.parent.path] and [file.name], from [file.path]; the root folder's
    path is ["/"]. *)
Definition notSlash (c : N) : bool := negb (c =? 47).

Definition dirname (path : jsstring) : jsstring :=
  match dropWhile notSlash (reverse path) with
  | [] => str "/"
  | _ :: d => reverse d
  end.

Definition basename (path : jsstring) : jsstring :=
  reverse (takeWhile notSlash (reverse path)).

(** [file.parent?.path] *)
Definition parentDir (v : Vault) (file : N) : option jsstring :=
  dirname <$> paths v !! file.

Definition fileName (v : Vault) (file : N) : jsstring :=
  default [] (basename <$> paths v !! file).

(** [vault.getAbstractFileByPath(path)], as a truth value. *)
Definition getAbstractFileByPath (v : Vault) (path : jsstring) : bool :=
  bool_decide (path ∈ folders v) || bool_decide (path ∈ (map_img (paths v) : gset jsstring)).

(** A frontmatter field of a file, if the file has the field. *)
Definition field (v : Vault) (file : N) (key : jsstring) : option value :=
  frontmatter v !! file ≫= (fun fm => fm !! key).

(** [cache?.frontmatter?.[key] ?? null] with [cache = getFileCache(file)] *)
Definition cached (v : Vault) (file : N) (key : jsstring) : value :=
  match frontmatter v !! file with
  | Some fm => orNull (getProperty fm key)
  | None => VNull
  end.

(** ** Host calls that can throw *)

Inductive outcome (A : Type) :=
  | Returned (a : A)
  | Thrown.
Arguments Returned {A} a.
Arguments Thrown {A}.

(** A computation on the vault that returns or throws; what it did before
    throwing stays done. *)
Definition M (A : Type) : Type := Vault -> outcome A * Vault.

Definition ret {A} (a : A) : M A := fun v => (Returned a, v).
Definition throw {A} : M A := fun v => (Thrown, v).
Definition bind {A B} (m : M A) (k : A -> M B) : M B :=
  fun v => match m v with
           | (Returned a, v') => k a v'
           | (Thrown, v') => (Thrown, v')
           end.

#[global] Instance M_ret : MRet M := @ret.
#[global] Instance M_bind : MBind M := fun A B k m => bind m k.

(** [fileManager.processFrontMatter(file, fn)]: applies [fn] to the record
    and stores it; rejects, leaving the record alone, on a locked file. *)
Definition processFrontMatter (file : N) (fn : gmap jsstring value -> gmap jsstring value)
  : M unit :=
  fun v =>
    let v := record (ProcessFrontMatter file) v in
    if bool_decide (file ∈ locked v) then (Thrown, v)
    else (Returned tt,
          set_frontmatter (fun m => <[file := fn (default ∅ (m !! file))]> m) v).

(** [vault.createFolder(path)]: rejects when the path is taken. *)
Definition createFolder (path : jsstring) : M unit :=
  fun v =>
    let v := record (CreateFolder path) v in
    if getAbstractFileByPath v path then (Thrown, v)
    else (Returned tt, set_folders (fun s => {[path]} ∪ s) v).

(** [fileManager.renameFile(file, newPath)]: rejects when the destination
    is taken (a name collision). *)
Definition renameFile (file : N) (newPath : jsstring) : M unit :=
  fun v =>
    let v := record (RenameFile file newPath) v in
    if getAbstractFileByPath v newPath then (Thrown, v)
    else (Returned tt, set_paths (fun m => <[file := newPath]> m) v).

(** ** Placement resolver ([archiveNote], [unarchiveNote], lines 148-183) *)

(** [parentDir.replace(/\/archive$/, '')] *)
Definition stripArchive (dir : jsstring) : jsstring :=
  if endsWith dir (str "/archive") then take (length dir - 8)%nat dir else dir.

Definition archiveNote (file : N) : M unit :=
  fun v =>
    match parentDir v file with
    | None | Some [] => ret tt v
    | Some dir =>
        if negb (endsWith dir (str "/tasks")) && negb (bool_decide (dir = str "tasks"))
        then ret tt v
        else
          let archivePath := dir ++ str "/archive" in
          let newPath := archivePath ++ str "/" ++ fileName v file in
          ((if getAbstractFileByPath v archivePath then ret tt
            else createFolder archivePath) ;;
           renameFile file newPath) v
    end.

Definition unarchiveNote (file : N) : M unit :=
  fun v =>
    match parentDir v file with
    | None | Some [] => ret tt v
    | Some dir =>
        if negb (endsWith dir (str "/tasks/archive")) then ret tt v
        else
          let tasksPath := stripArchive dir in
          let newPath := tasksPath ++ str "/" ++ fileName v file in
          renameFile file newPath v
    end.

(** Lines 138-142: the placement call that follows a metadata write. *)
Definition resolvePlacement (file : N) (status : jsstring) : M unit :=
  if isArchiveStatus status then archiveNote file else unarchiveNote file.

(** ** Sync engine ([updateNote], [syncBoard], the [modify] handler) *)

Record KSUSettings := MkSettings {
  statusPropertyName : jsstring;
  showNotifications : bool;
  debugMode : bool
}.

Definition DEFAULT_SETTINGS : KSUSettings := MkSettings (str "status") false false.

Section Engine.

Variable settings : KSUSettings.

(** Lines 116-120, on the values read from the cache. *)
Definition needsUpdate (columnName : jsstring) (oldStatus oldUrgent oldImportant : value)
  : bool :=
  let needsUpdate := negb (strictEq oldStatus (VStr (targetStatus columnName))) in
  if isQuadrant columnName then
    let q := QUADRANT_MAP_get columnName in
    needsUpdate || negb (strictEq oldUrgent (q_urgent q))
                || negb (strictEq oldImportant (q_important q))
  else needsUpdate.

Definition needsUpdateOf (v : Vault) (file : N) (columnName : jsstring) : bool :=
  needsUpdate columnName
    (cached v file (statusPropertyName settings))
    (cached v file (str "urgent"))
    (cached v file (str "important")).

(** The callback given to [processFrontMatter], lines 125-129. *)
Definition writeFields (columnName : jsstring) (fm : gmap jsstring value)
  : gmap jsstring value :=
  let fm := setProperty (statusPropertyName settings) (VStr (targetStatus columnName)) fm in
  if isQuadrant columnName then
    setProperty (str "important") (q_important (QUADRANT_MAP_get columnName))
      (setProperty (str "urgent") (q_urgent (QUADRANT_MAP_get columnName)) fm)
  else fm.

(** The [try] block of [updateNote], lines 105-142.  The log lines and the
    notices have no part in the state. *)
Definition updateNote_try (notePath columnName : jsstring) : M unit :=
  fun v =>
    match linkDest v !! notePath with
    | None => ret tt v
    | Some file =>
        if negb (needsUpdateOf v file columnName) then ret tt v
        else
          (processFrontMatter file (writeFields columnName) ;;
           resolvePlacement file (targetStatus columnName)) v
    end.

(** [updateNote]: the [catch] reports the error and returns. *)
Definition updateNote (notePath columnName : jsstring) (v : Vault) : Vault :=
  match updateNote_try notePath columnName v with
  | (Returned _, v') => v'
  | (Thrown, v') => record (ConsoleError notePath) v'
  end.

(** The [for] loop of [syncBoard], lines 77-79. *)
Definition updateAll (updates : list update) (v : Vault) : Vault :=
  foldl (fun v u => updateNote (linkPath u) (columnName u) v) v updates.

(** The plugin object: the suppression flag, the board index, and the host. *)
Record Plugin := MkPlugin {
  isUpdating : bool;
  boardPaths : gset jsstring;
  vault : Vault
}.

(** [syncBoard(file)] run from start to end with nothing in between; a
    board that cannot be read rejects before anything is done. *)
Definition syncBoard (file : N) (p : Plugin) : Plugin :=
  match text (vault p) !! file with
  | None => p
  | Some content =>
      let updates := parseBoardContent content in
      if bool_decide (updates = []) then p
      else
        let p := MkPlugin true (boardPaths p) (vault p) in
        let p := MkPlugin (isUpdating p) (boardPaths p) (updateAll updates (vault p)) in
        MkPlugin false (boardPaths p) (vault p)
  end.

(** *** The run as the host schedules it

    [syncBoard] is an [async] function: it gives control back at each
    [await], and the host may deliver events, or resume another run, before
    it continues.  A run is suspended either in [cachedRead] (line 72) or in
    an [updateNote] of the loop (line 78), with the pairs still to do. *)
Inductive run :=
  | Reading (file : N)
  | Updating (rest : list update).

(** What a [modify] event carries: a file or a folder. *)
Inductive TAbstractFile :=
  | AFile (file : N)
  | AFolder (path : jsstring).

Record Host := MkHost {
  plugin : Plugin;
  inflight : list run
}.

(** The [modify] handler, lines 34-37: the file [syncBoard] is called on,
    if any. *)
Definition onModify (p : Plugin) (file : TAbstractFile) : option N :=
  match file with
  | AFolder _ => None
  | AFile f =>
      if isUpdating p then None
      else match paths (vault p) !! f with
           | Some path => if bool_decide (path ∈ boardPaths p) then Some f else None
           | None => None
           end
  end.

Inductive label :=
  | Modify (file : TAbstractFile)     (* the host delivers a [modify] event *)
  | Resume (i : nat).                 (* the host resumes the [i]-th run in flight *)

(** Resuming a run: after the read, parse, return on no pairs, else set the
    flag and enter the loop; in the loop, the next [updateNote]; after the
    last pair, clear the flag and finish. *)
Definition resume (r : run) (p : Plugin) : Plugin * option run :=
  match r with
  | Reading file =>
      match text (vault p) !! file with
      | None => (p, None)
      | Some content =>
          let updates := parseBoardContent content in
          if bool_decide (updates = []) then (p, None)
          else (MkPlugin true (boardPaths p) (vault p), Some (Updating updates))
      end
  | Updating (u :: rest) =>
      (MkPlugin (isUpdating p) (boardPaths p)
         (updateNote (linkPath u) (columnName u) (vault p)),
       Some (Updating rest))
  | Updating [] =>
      (MkPlugin false (boardPaths p) (vault p), None)
  end.

Definition step (h : Host) (l : label) : Host :=
  match l with
  | Modify file =>
      match onModify (plugin h) file with
      | Some f => MkHost (plugin h) (inflight h ++ [Reading f])
      | None => h
      end
  | Resume i =>
      match inflight h !! i with
      | None => h
      | Some r =>
          match resume r (plugin h) with
          | (p, Some r') => MkHost p (<[i := r']> (inflight h))
          | (p, None) => MkHost p (delete i (inflight h))
          end
      end
  end.

Definition exec (h : Host) (trace : list label) : Host := foldl step h trace.

End Engine.

(** ** The parser in the specification's words *)

(** A link-bearing line, and the column in force after a run of lines: the
    trimmed text of the last heading line among them. *)
Definition hasLink (line : jsstring) : bool :=
  match linkMatch line with Some _ => true | None => false end.

Definition columnAfter (lines : list jsstring) : option jsstring :=
  trim <$> last (omap headingMatch lines).

(** The nearest heading line before line [j]. *)
Definition nearestHeading (lines : list jsstring) (j : nat) : option jsstring :=
  columnAfter (take j lines).

(** The pair [u] is the one of line [j]: its link is the first link of
    that line and its column the nearest preceding heading. *)
Definition emittedFrom (lines : list jsstring) (j : nat) (u : update) : Prop :=
  exists line, lines !! j = Some line
    /\ linkMatch line = Some (linkPath u)
    /\ nearestHeading lines j = Some (columnName u).

(** ** The path convention in the specification's words *)

(** An active location: a folder literally [tasks], or a path that ends in
    the segment [tasks]. *)
Definition isActiveLocation (dir : jsstring) : Prop :=
  dir = str "tasks" \/ exists r, dir = r ++ str "/tasks".

(** An archive location: an active location plus a nested [archive]. *)
Definition isArchiveLocation (dir : jsstring) : Prop :=
  exists active, isActiveLocation active /\ dir = active ++ str "/archive".

(** Some folder on the way to [dir] is named [tasks]. *)
Definition underTasks (dir : jsstring) : Prop := str "tasks" ∈ split 47 dir.

(** The host calls made between two states of the vault. *)
Definition newCalls (v v' : Vault) : list call := drop (length (calls v)) (calls v').

(** ** [needsUpdate] in the specification's words *)

Definition needsUpdate_spec (quadrant : bool)
  (currentStatus targetStatus currentUrgent targetUrgent
   currentImportant targetImportant : value) : bool :=
  negb (strictEq currentStatus targetStatus)
  || (quadrant && (negb (strictEq currentUrgent targetUrgent)
                   || negb (strictEq currentImportant targetImportant))).

(** ** Small vaults for the examples *)

Definition mkVault (files : list (N * jsstring)) (dirs : list jsstring)
  (records : list (N * gmap jsstring value)) (texts : list (N * jsstring))
  (links : list (jsstring * N)) (lockedFiles : list N) : Vault :=
  MkVault (list_to_map files) (list_to_set dirs) (list_to_map records)
          (list_to_map texts) (list_to_map links) (list_to_set lockedFiles) [].

(** One item, file [1], linked as [x], at the given path. *)
Definition itemAt (path : jsstring) (dirs : list jsstring) : Vault :=
  mkVault [(1, path)] dirs [] [] [(str "x", 1)] [].

(** ** Vocabulary of the sync engine's properties *)

(** [v'] differs from [v] at most in the paths, the folders and further
    host calls: what the placement resolver may touch. *)
Definition sameRecords (v v' : Vault) : Prop :=
  frontmatter v' = frontmatter v /\ text v' = text v /\ linkDest v' = linkDest v
  /\ locked v' = locked v /\ exists l, calls v' = calls v ++ l.

(** The vault after a successful [processFrontMatter] of [updateNote]. *)
Definition written (settings : KSUSettings) (file : N) (columnName : jsstring) (v : Vault)
  : Vault :=
  set_frontmatter
    (fun m => <[file := writeFields settings columnName (default ∅ (m !! file))]> m)
    (record (ProcessFrontMatter file) v).

(** Item [x] (file [1]) in [tasks], a file of the same name already in
    [tasks/archive] (file [2]), and item [y] (file [3]) elsewhere. *)
Definition collisionVault : Vault :=
  mkVault [(1, str "tasks/x.md"); (2, str "tasks/archive/x.md"); (3, str "notes/y.md")]
          [str "tasks"; str "tasks/archive"; str "notes"]
          [(1, {[ str "tags" := VArray [str "work"] ]})] []
          [(str "x", 1); (str "y", 3)] [].

(** The pairs of a board are settled when no linked item needs an update. *)
Definition settled (settings : KSUSettings) (v : Vault) (u : update) : Prop :=
  forall file, linkDest v !! linkPath u = Some file ->
               needsUpdateOf settings v file (columnName u) = false.

(** No item is linked under two different column names. *)
Definition oneColumnPerItem (v : Vault) (updates : list update) : Prop :=
  forall u1 u2 file,
    u1 ∈ updates -> u2 ∈ updates ->
    linkDest v !! linkPath u1 = Some file -> linkDest v !! linkPath u2 = Some file ->
    columnName u1 = columnName u2.

(** No column bears a name inherited from [Object.prototype], and where a
    column is a quadrant the status property is neither [urgent] nor
    [important]. *)
Definition properColumns (settings : KSUSettings) (updates : list update) : Prop :=
  forall u, u ∈ updates ->
    QUADRANT_MAP_get (columnName u) <> Inherited
    /\ (isQuadrant (columnName u) = true ->
        statusPropertyName settings <> str "urgent"
        /\ statusPropertyName settings <> str "important").

(** The host can rewrite the frontmatter of every linked item. *)
Definition writable (v : Vault) (updates : list update) : Prop :=
  forall u file, u ∈ updates -> linkDest v !! linkPath u = Some file -> file ∉ locked v.

(** What [syncBoard] would parse from the board now. *)
Definition pairsOf (v : Vault) (board : N) : list update :=
  match text v !! board with
  | Some content => parseBoardContent content
  | None => []
  end.

(** A board that links item [x] (file [1]) under two columns. *)
Definition duplicateLinkPlugin : Plugin :=
  MkPlugin false {[ str "board.md" ]}
    (mkVault [(1, str "notes/x.md"); (10, str "board.md")] [str "notes"] []
       [(10, str "## a" ++ 10 :: str "- [[x]]" ++ 10 :: str "## b" ++ 10 :: str "- [[x]]")]
       [(str "x", 1)] []).

(** A board that links [x] once, under a quadrant column. *)
Definition quadrantBoardPlugin : Plugin :=
  MkPlugin false {[ str "board.md" ]}
    (mkVault [(1, str "tasks/x.md"); (10, str "board.md")] [str "tasks"] []
       [(10, str "## " ++ key_DoFirst ++ 10 :: str "- [[x]]")]
       [(str "x", 1)] []).

(** One board, file [10], with the given text, and item [x] (file [1]),
    locked or not. *)
Definition boardPlugin (content : jsstring) (lockedFiles : list N) : Plugin :=
  MkPlugin false {[ str "board.md" ]}
    (mkVault [(1, str "notes/x.md"); (10, str "board.md")] [str "notes"] []
       [(10, content)] [(str "x", 1)] lockedFiles).

(** Two boards, files [10] and [11], with items [x], [y], [z]; no run in
    flight. *)
Definition twoBoards : Host :=
  MkHost
    (MkPlugin false {[ str "a.md"; str "b.md" ]}
       (mkVault [(1, str "x.md"); (2, str "y.md"); (3, str "z.md");
                 (10, str "a.md"); (11, str "b.md")] [] []
          [(10, str "## todo" ++ 10 :: str "- [[x]]");
           (11, str "## todo" ++ 10 :: str "- [[y]]" ++ 10 :: str "- [[z]]")]
          [(str "x", 1); (str "y", 2); (str "z", 3)] []))
    [].

(** The host delivers the [modify] events of [events], then resumes the
    only run in flight; and so on for each element of the schedule. *)
Definition drain (settings : KSUSettings) (h : Host) (schedule : list (list TAbstractFile))
  : Host :=
  foldl (fun h events =>
           step settings (foldl (fun h f => step settings h (Modify f)) h events) (Resume 0))
        h schedule.

(** ** Board index ([indexBoards], lines 60-69) *)

(** Truthiness of a value, as [if (x)] sees it. *)
Definition truthyValue (x : value) : bool :=
  match x with
  | VUndefined | VNull => false
  | VBool b => b
  | VNum n => negb (bool_decide (n = 0%Z))
  | VStr s => negb (bool_decide (s = []))
  | VArray _ | VObject => true
  end.

(** [cache?.frontmatter?.['kanban-plugin']], as a truth value. *)
Definition hasBoardMarker (v : Vault) (file : N) : bool :=
  match field v file (str "kanban-plugin") with
  | Some x => truthyValue x
  | None => false
  end.

(** [vault.getMarkdownFiles()]: the files whose path ends in [.md]. *)
Definition getMarkdownFiles (v : Vault) : list (N * jsstring) :=
  List.filter (fun fp => endsWith fp.2 (str ".md")) (map_to_list (paths v)).

(** [indexBoards]: clear the index, then add the path of every markdown
    file that bears the marker. *)
Definition indexBoards (p : Plugin) : Plugin :=
  MkPlugin (isUpdating p)
    (foldl (fun (index : gset jsstring) fp =>
              if hasBoardMarker (vault p) fp.1 then {[ fp.2 ]} ∪ index else index)
           ∅ (getMarkdownFiles (vault p)))
    (vault p).

(** ** Boards as text, for the parser's properties *)

(** [lines.join("\n")] *)
Definition joinLines (lines : list jsstring) : jsstring :=
  match lines with
  | [] => []
  | l :: r => l ++ flat_map (fun x => 10 :: x) r
  end.

(** A column of cards, written the way a kanban board holds it: a heading
    line, then one task line per card. *)
Record column := Column { colName : jsstring; cards : list jsstring }.

Definition renderCard (target : jsstring) : jsstring :=
  str "- [ ] [[" ++ target ++ str "]]".

Definition renderColumn (c : column) : list jsstring :=
  (str "## " ++ colName c) :: map renderCard (cards c).

Definition renderColumns (b : list column) : list jsstring :=
  flat_map renderColumn b.

Definition pairsOfColumns (b : list column) : list update :=
  flat_map (fun c => map (fun target => Update target (colName c)) (cards c)) b.

(** A column name that a heading line gives back as it is, and a link
    target that a link token gives back as it is. *)
Definition plainName (name : jsstring) : Prop :=
  name <> [] /\ trim name = name /\ Forall (fun c => isLineTerminator c = false) name.

Definition plainTarget (target : jsstring) : Prop :=
  target <> [] /\ (93 ∉ target) /\ (10 ∉ target).

(** The loop state [currentColumn] after the lines, starting from [cur]. *)
Definition columnFrom (cur : option jsstring) (lines : list jsstring) : option jsstring :=
  foldl (fun cur line =>
           match headingMatch line with
           | Some cap => Some (trim cap)
           | None => cur
           end) cur lines.

(** ** What a sync keeps of the vault's files *)

(** No two files share a path. *)
Definition pathsInjective (v : Vault) : Prop :=
  forall f g path, paths v !! f = Some path -> paths v !! g = Some path -> f = g.

(** From [v] to [v'] the same files exist, each with the name it had, no
    folder is gone, and paths that were distinct still are. *)
Definition keepsFiles (v v' : Vault) : Prop :=
  (forall f, is_Some (paths v' !! f) <-> is_Some (paths v !! f))
  /\ (forall f, fileName v' f = fileName v f)
  /\ folders v ⊆ folders v'
  /\ (pathsInjective v -> pathsInjective v').

(** A board file [10] with the marker, a markdown note [1] without it, and
    a marked file [11] that is no markdown file. *)
Definition indexVault : Vault :=
  mkVault [(1, str "notes/x.md"); (10, str "board.md"); (11, str "board.canvas")] [str "notes"]
          [(10, {[ str "kanban-plugin" := VStr (str "basic") ]});
           (11, {[ str "kanban-plugin" := VStr (str "basic") ]});
           (1, {[ str "kanban-plugin" := VBool false ]})]
          [] [] [].

(** ** The column policy and the stored record in the specification's words *)

(** One of the four reserved quadrant identifiers. *)
Definition reserved (columnName : jsstring) : bool :=
  bool_decide (columnName ∈ QUADRANT_MAP.*1).

(** The value an item's record holds under a key, [null] when it holds
    none. *)
Definition storedOrNull (v : Vault) (file : N) (key : jsstring) : value :=
  match field v file key with
  | Some VUndefined | None => VNull
  | Some x => x
  end.

(** Item [x] (file [1]) with status [constructor] and [urgent] set, as a
    board with a column named [constructor] would find it in place. *)
Definition constructorVault : Vault :=
  mkVault [(1, str "notes/x.md")] [str "notes"]
          [(1, {[ str "status" := VStr (str "constructor"); str "urgent" := VBool true ]})]
          [] [(str "x", 1)] [].

(** Item [x] (file [1]) already in column [done] with status [done]. *)
Definition doneVault : Vault :=
  mkVault [(1, str "notes/x.md")] [str "notes"]
          [(1, {[ str "status" := VStr (str "done") ]})]
          [] [(str "x", 1)] [].

(** * Properties *)

(** ** Strings *)

Section StringFacts.

Context {A : Type} (p : A -> bool).

Lemma takeWhile_dropWhile (l : list A) : takeWhile p l ++ dropWhile p l = l.
Proof. induction l as [|x r IH]; simpl; [done|]. destruct (p x); simpl; congruence. Qed.

Lemma takeWhile_all (l : list A) : Forall (fun x => p x = true) (takeWhile p l).
Proof.
  induction l as [|x r IH]; simpl; [constructor|].
  destruct (p x) eqn:E; constructor; assumption.
Qed.

Lemma dropWhile_head (l : list A) x r : dropWhile p l = x :: r -> p x = false.
Proof.
  induction l as [|y l IH]; simpl; [discriminate|].
  destruct (p y) eqn:E; [exact IH|]. intros [= -> _]. exact E.
Qed.

Lemma dropWhile_id (l : list A) x r : l = x :: r -> p x = false -> dropWhile p l = l.
Proof. intros -> H. simpl. by rewrite H. Qed.

End StringFacts.

Lemma trimEnd_prefix (s : jsstring) : exists ws, s = trimEnd s ++ ws.
Proof.
  unfold trimEnd. exists (reverse (takeWhile isTrimmed (reverse s))).
  rewrite <- reverse_app, takeWhile_dropWhile. by rewrite reverse_involutive.
Qed.

Lemma trimEnd_last (s : jsstring) c : last (trimEnd s) = Some c -> isTrimmed c = false.
Proof.
  unfold trimEnd. rewrite last_reverse.
  destruct (dropWhile isTrimmed (reverse s)) as [|x r] eqn:E; simpl; [discriminate|].
  intros [= <-]. eapply dropWhile_head, E.
Qed.

Lemma trimEnd_id (s : jsstring) :
  (forall c, last s = Some c -> isTrimmed c = false) -> trimEnd s = s.
Proof.
  intros H. unfold trimEnd.
  destruct (reverse s) as [|x r] eqn:E.
  - simpl. apply (f_equal reverse) in E. by rewrite reverse_involutive in E.
  - rewrite (dropWhile_id _ _ x r eq_refl).
    + rewrite <- E. apply reverse_involutive.
    + apply H. rewrite <- (reverse_involutive s), E, last_reverse. reflexivity.
Qed.

Lemma trim_head (s : jsstring) c : head (trim s) = Some c -> isTrimmed c = false.
Proof.
  unfold trim. intros H.
  destruct (trimEnd_prefix (trimStart s)) as [ws Hws].
  destruct (trimEnd (trimStart s)) as [|x r] eqn:E; simpl in H; [discriminate|].
  injection H as ->. unfold trimStart in Hws. eapply dropWhile_head, Hws.
Qed.

Lemma trim_last (s : jsstring) c : last (trim s) = Some c -> isTrimmed c = false.
Proof. apply trimEnd_last. Qed.

Lemma trim_idempotent (s : jsstring) : trim (trim s) = trim s.
Proof.
  unfold trim at 1. unfold trimStart.
  destruct (trim s) as [|c r] eqn:E; [reflexivity|].
  rewrite (dropWhile_id _ _ c r eq_refl).
  - rewrite <- E. apply trimEnd_id. intros ?. apply trim_last.
  - apply (trim_head s). by rewrite E.
Qed.

Lemma trim_surround (s : jsstring) :
  exists ws ws', s = ws ++ trim s ++ ws'
                 /\ Forall (fun c => isTrimmed c = true) ws
                 /\ Forall (fun c => isTrimmed c = true) ws'.
Proof.
  exists (takeWhile isTrimmed s), (reverse (takeWhile isTrimmed (reverse (trimStart s)))).
  split; [|split].
  - unfold trim, trimEnd. rewrite <- reverse_app, takeWhile_dropWhile, reverse_involutive.
    unfold trimStart. by rewrite takeWhile_dropWhile.
  - apply takeWhile_all.
  - apply Forall_reverse, takeWhile_all.
Qed.

Lemma stripPrefix_app (p s r : jsstring) : stripPrefix p s = Some r <-> s = p ++ r.
Proof.
  revert s. induction p as [|a p IH]; intros s; simpl.
  - split; congruence.
  - destruct s as [|b s]; [split; discriminate|].
    destruct (N.eqb_spec a b) as [->|Hne].
    + rewrite IH. split; congruence.
    + split; [discriminate|]. intros [= ? _]. congruence.
Qed.

Lemma startsWith_app (s p : jsstring) : startsWith s p = true <-> exists r, s = p ++ r.
Proof.
  unfold startsWith. destruct (stripPrefix p s) as [r|] eqn:E.
  - apply stripPrefix_app in E. split; eauto.
  - split; [discriminate|]. intros [r Hr].
    apply stripPrefix_app in Hr. congruence.
Qed.

Lemma endsWith_app (s p : jsstring) : endsWith s p = true <-> exists r, s = r ++ p.
Proof.
  unfold endsWith. rewrite startsWith_app. split; intros [r Hr].
  - exists (reverse r). apply (f_equal reverse) in Hr.
    by rewrite reverse_app, !reverse_involutive in Hr.
  - exists (reverse r). by rewrite Hr, reverse_app.
Qed.

Lemma split_nonempty sep s : split sep s <> [].
Proof.
  destruct s as [|c r]; simpl; [done|].
  destruct (c =? sep); [done|]. destruct (split sep r); done.
Qed.

Lemma split_app sep (a b : jsstring) :
  split sep (a ++ sep :: b) = split sep a ++ split sep b.
Proof.
  induction a as [|c a IH]; simpl.
  - by rewrite N.eqb_refl.
  - destruct (c =? sep); [by rewrite IH|].
    rewrite IH. destruct (split sep a) eqn:E; [by apply split_nonempty in E|done].
Qed.

(** ** Board parser *)

Lemma columnAfter_snoc (pre : list jsstring) (line : jsstring) :
  columnAfter (pre ++ [line]) =
  match headingMatch line with
  | Some cap => Some (trim cap)
  | None => columnAfter pre
  end.
Proof.
  unfold columnAfter. rewrite omap_app. simpl.
  destruct (headingMatch line) as [cap|]; simpl.
  - by rewrite last_snoc.
  - by rewrite app_nil_r.
Qed.

Lemma emittedFrom_here (pre rest : list jsstring) (line target col : jsstring) :
  linkMatch line = Some target ->
  columnAfter pre = Some col ->
  emittedFrom (pre ++ line :: rest) (length pre) (Update target col).
Proof.
  intros Hl Hc. exists line. split; [|split]; simpl.
  - by rewrite list_lookup_middle.
  - exact Hl.
  - unfold nearestHeading. by rewrite take_app_length.
Qed.

Lemma parseLines_emitted (lines pre : list jsstring) :
  exists js : list nat,
    js `sublist_of` seq (length pre) (length lines)
    /\ Forall2 (emittedFrom (pre ++ lines)) js (parseLines (columnAfter pre) lines).
Proof.
  revert pre. induction lines as [|line rest IH]; intros pre.
  - exists []. split; [apply sublist_nil_l | constructor].
  - destruct (IH (pre ++ [line])) as (js & Hsub & Hall).
    rewrite length_app in Hsub. simpl in Hsub.
    replace (length pre + 1)%nat with (S (length pre)) in Hsub by lia.
    rewrite <- app_assoc in Hall. simpl in Hall.
    rewrite columnAfter_snoc in Hall. simpl.
    destruct (headingMatch line) as [cap|] eqn:Hh.
    + exists js. split; [by apply sublist_cons | exact Hall].
    + destruct (truthy (columnAfter pre)) eqn:Ht;
        [|exists js; split; [by apply sublist_cons | exact Hall]].
      destruct (linkMatch line) as [target|] eqn:Hl;
        [|exists js; split; [by apply sublist_cons | exact Hall]].
      destruct (columnAfter pre) as [col|] eqn:Hc; [|discriminate].
      exists (length pre :: js). split; [by apply sublist_skip|].
      constructor; [|exact Hall]. by apply emittedFrom_here.
Qed.

Lemma parseLines_length (cur : option jsstring) (lines : list jsstring) :
  (length (parseLines cur lines) <= length (List.filter hasLink lines))%nat.
Proof.
  revert cur. induction lines as [|line rest IH]; intros cur; simpl; [lia|].
  unfold hasLink at 1.
  destruct (headingMatch line) as [cap|].
  - specialize (IH (Some (trim cap))). destruct (linkMatch line); simpl; lia.
  - specialize (IH cur).
    destruct (truthy cur), (linkMatch line), cur; simpl; lia.
Qed.

Lemma parseLines_before_heading (pre rest : list jsstring) :
  Forall (fun l => headingMatch l = None) pre ->
  parseLines None (pre ++ rest) = parseLines None rest.
Proof.
  induction 1 as [|line pre Hh _ IH]; simpl; [reflexivity|]. by rewrite Hh.
Qed.

Lemma parseLines_column (lines : list jsstring) (cur : option jsstring) (u : update) :
  u ∈ parseLines cur lines ->
  cur = Some (columnName u)
  \/ exists line cap, line ∈ lines /\ headingMatch line = Some cap
                      /\ columnName u = trim cap.
Proof.
  revert cur. induction lines as [|line rest IH]; intros cur; simpl.
  - intros H. by apply elem_of_nil in H.
  - assert (Hrest : forall cur', u ∈ parseLines cur' rest ->
              cur' = Some (columnName u)
              \/ exists l cap, l ∈ line :: rest /\ headingMatch l = Some cap
                               /\ columnName u = trim cap).
    { intros cur' H. destruct (IH _ H) as [->|(l & cap & Hin & Hm & Hc)]; [by left|].
      right. exists l, cap. split; [by apply list_elem_of_further | done]. }
    destruct (headingMatch line) as [cap|] eqn:Hh.
    + intros H. destruct (Hrest _ H) as [[= Hc]|?]; [|by right].
      right. exists line, cap. split; [apply list_elem_of_here | done].
    + destruct (truthy cur); [|apply Hrest].
      destruct (linkMatch line) as [target|]; [|apply Hrest].
      destruct cur as [col|]; [|apply Hrest].
      intros [->|H]%elem_of_cons; [by left | by apply Hrest].
Qed.

Lemma linkAt_Some (s t : jsstring) :
  linkAt s = Some t ->
  exists after, s = str "[[" ++ t ++ str "]]" ++ after /\ t <> [] /\ 93 ∉ t.
Proof.
  unfold linkAt. destruct (stripPrefix (str "[[") s) as [r|] eqn:Hp; [|discriminate].
  apply stripPrefix_app in Hp.
  destruct (bool_decide (takeWhile notBracket r = [])) eqn:Hne;
    cbn [negb andb]; [discriminate|].
  destruct (startsWith (dropWhile notBracket r) (str "]]")) eqn:Hs; [|discriminate].
  intros [= <-]. apply startsWith_app in Hs as [after Hafter].
  exists after. split; [|split].
  - rewrite Hp. f_equal. rewrite <- Hafter. by rewrite takeWhile_dropWhile.
  - by apply bool_decide_eq_false in Hne.
  - intros Hin. pose proof (takeWhile_all notBracket r) as Hall.
    rewrite Forall_forall in Hall. by apply Hall in Hin.
Qed.

Lemma linkMatch_leftmost (line t : jsstring) :
  linkMatch line = Some t ->
  exists n, linkAt (drop n line) = Some t
            /\ forall m, (m < n)%nat -> linkAt (drop m line) = None.
Proof.
  induction line as [|c rest IH]; simpl; [discriminate|].
  destruct (linkAt (c :: rest)) as [t'|] eqn:E.
  - intros [= ->]. exists 0%nat. split; [exact E | lia].
  - intros H. destruct (IH H) as (n & Hn & Hlt).
    exists (S n). split; [exact Hn|].
    intros [|m] Hm; [exact E | apply Hlt; lia].
Qed.

(** C5: the parser emits at most one pair per link-bearing line, so at most
    M pairs; the pairs come, in order, from distinct lines, each with the
    first link of its line and the trimmed text of the nearest preceding
    heading line as its column; the lines before the first heading give
    nothing; and [parseBoardContent] is a total function, so it has a result
    on every string. *)
Theorem parser_pairs_follow_headings (content : jsstring) :
  let lines := split 10 content in
  let out := parseBoardContent content in
  (length out <= length (List.filter hasLink lines))%nat
  /\ (exists js : list nat,
        js `sublist_of` seq 0 (length lines) /\ Forall2 (emittedFrom lines) js out)
  /\ (forall line t, linkMatch line = Some t ->
        exists before after,
          line = before ++ str "[[" ++ t ++ str "]]" ++ after
          /\ t <> [] /\ (93 ∉ t)
          /\ forall m, (m < length before)%nat -> linkAt (drop m line) = None)
  /\ (forall pre rest,
        Forall (fun l => headingMatch l = None) (split 10 pre) ->
        parseBoardContent (pre ++ 10 :: rest) = parseBoardContent rest).
Proof.
  intros lines out. split; [|split; [|split]].
  - apply parseLines_length.
  - apply (parseLines_emitted lines []).
  - intros line t Hm. destruct (linkMatch_leftmost _ _ Hm) as (n & Hn & Hlt).
    destruct (linkAt_Some _ _ Hn) as (after & Heq & Hne & Hnot).
    exists (take n line), after. split; [|split; [|split]]; try done.
    + rewrite <- Heq. by rewrite take_drop.
    + intros m Hlen. apply Hlt. rewrite length_take in Hlen. lia.
  - intros pre rest Hpre. unfold parseBoardContent.
    rewrite split_app. by apply parseLines_before_heading.
Qed.

Lemma parser_pairs_follow_headings_witness :
  let content := str "[[early]]" ++ 10 :: str "## todo" ++ 10 :: str "- [[A]] and [[B]]" in
  parseBoardContent content = [Update (str "A") (str "todo")]
  /\ parseBoardContent (str "## todo" ++ 10 :: str "- [[A]] and [[B]]")
     = [Update (str "A") (str "todo")].
Proof.
  pose proof (parser_pairs_follow_headings
                (str "[[early]]" ++ 10 :: str "## todo" ++ 10 :: str "- [[A]] and [[B]]"))
    as (_ & _ & _ & H).
  split; [vm_compute; reflexivity|].
  rewrite <- (H (str "[[early]]") (str "## todo" ++ 10 :: str "- [[A]] and [[B]]")).
  - vm_compute. reflexivity.
  - vm_compute. repeat constructor.
Defined.

Lemma headingMatch_line (line cap : jsstring) :
  headingMatch line = Some cap -> line = str "## " ++ cap.
Proof.
  unfold headingMatch. destruct (stripPrefix (str "## ") line) as [rest|] eqn:Hp; [|done].
  apply stripPrefix_app in Hp. destruct (_ && _); [|done]. by intros [= <-].
Qed.

(** C10: the column name of every emitted pair is the text captured after
    ["## "] on a heading line with the white space at both ends removed:
    the capture is the name with white space before and after it, the name
    neither starts nor ends with white space, and trimming it again changes
    nothing; the heading ["##  done  "] gives the column ["done"], whose
    target status is ["done"]. *)
Theorem parser_columns_trimmed :
  (forall (content : jsstring) (u : update),
      u ∈ parseBoardContent content ->
      (exists line cap ws ws',
          line ∈ split 10 content /\ headingMatch line = Some cap
          /\ line = str "## " ++ cap
          /\ columnName u = trim cap
          /\ cap = ws ++ columnName u ++ ws'
          /\ Forall (fun c => isTrimmed c = true) ws
          /\ Forall (fun c => isTrimmed c = true) ws')
      /\ trim (columnName u) = columnName u
      /\ (forall c, head (columnName u) = Some c -> isTrimmed c = false)
      /\ (forall c, last (columnName u) = Some c -> isTrimmed c = false))
  /\ parseBoardContent (str "##  done  " ++ 10 :: str "- [[x]]")
     = [Update (str "x") (str "done")]
  /\ targetStatus (str "done") = str "done".
Proof.
  split; [|split; vm_compute; reflexivity].
  intros content u Hu.
  destruct (parseLines_column _ _ _ Hu) as [[=]|(line & cap & Hin & Hm & Hc)].
  split.
  { destruct (trim_surround cap) as (ws & ws' & Hcap & Hws & Hws').
    exists line, cap, ws, ws'. rewrite Hc. repeat split; try done.
    by apply headingMatch_line. }
  rewrite Hc.
  split; [apply trim_idempotent|]. split; intros c; [apply trim_head | apply trim_last].
Qed.

Lemma parser_columns_trimmed_witness :
  exists ws ws', str " done  " = ws ++ str "done" ++ ws'
                 /\ Forall (fun c => isTrimmed c = true) ws
                 /\ Forall (fun c => isTrimmed c = true) ws'.
Proof.
  destruct parser_columns_trimmed as [H _].
  destruct (H (str "##  done  " ++ 10 :: str "- [[x]]") (Update (str "x") (str "done")))
    as ((line & cap & ws & ws' & Hin & Hm & Hline & Hn & Hcap & Hws & Hws') & _).
  { vm_compute. apply list_elem_of_here. }
  exists ws, ws'. split; [|done].
  vm_compute in Hin.
  apply elem_of_cons in Hin as [->|Hin].
  - vm_compute in Hm. injection Hm as <-. exact Hcap.
  - apply list_elem_of_singleton in Hin as ->. vm_compute in Hm. discriminate.
Defined.

(** ** Column policy *)

Lemma quadrant_table :
  map (fun k => (targetStatus k, QUADRANT_MAP_get k))
      [key_Eliminate; key_Delegate; key_Schedule; key_DoFirst]
  = [ (str "backlog", Own (Flags false false));
      (str "backlog", Own (Flags true false));
      (str "backlog", Own (Flags false true));
      (str "backlog", Own (Flags true true)) ].
Proof. vm_compute. reflexivity. Qed.

Lemma plain_column_status (columnName : jsstring) :
  assoc columnName QUADRANT_MAP = None ->
  columnName ∉ Object_prototype ->
  isQuadrant columnName = false /\ targetStatus columnName = columnName.
Proof.
  intros Hown Hproto. unfold targetStatus, isQuadrant, QUADRANT_MAP_get.
  rewrite Hown. by rewrite bool_decide_eq_false_2.
Qed.

(** C2, at the column name ["constructor"]: it is none of the four reserved
    names, yet [in] finds it on [Object.prototype], so the column counts as
    a quadrant: the target status is ["backlog"], not the column name, and
    the write sets [urgent] and [important] (to [undefined]). *)
Theorem inherited_name_counts_as_quadrant :
  assoc (str "constructor") QUADRANT_MAP = None
  /\ isQuadrant (str "constructor") = true
  /\ targetStatus (str "constructor") = str "backlog"
  /\ targetStatus (str "constructor") <> str "constructor"
  /\ writeFields DEFAULT_SETTINGS (str "constructor") {[ str "urgent" := VBool true ]}
       !! str "urgent" = Some VUndefined.
Proof. vm_compute. repeat split; try reflexivity. discriminate. Qed.

(** ** Placement resolver *)

Lemma active_test (dir : jsstring) :
  negb (endsWith dir (str "/tasks")) && negb (bool_decide (dir = str "tasks")) = false
  <-> isActiveLocation dir.
Proof.
  unfold isActiveLocation. rewrite andb_false_iff, !negb_false_iff.
  rewrite endsWith_app, bool_decide_eq_true. tauto.
Qed.

Lemma active_nonempty (dir : jsstring) : isActiveLocation dir -> dir <> [].
Proof.
  intros [->|[r ->]]; [done|]. intros H. apply (f_equal length) in H.
  rewrite length_app in H. simpl in H. lia.
Qed.

Lemma archive_not_active (dir : jsstring) : isArchiveLocation dir -> ~ isActiveLocation dir.
Proof.
  intros (a & _ & ->) [H|[r H]]; apply (f_equal reverse) in H;
    rewrite !reverse_app in H; vm_compute in H; discriminate.
Qed.

Lemma archive_test (dir : jsstring) :
  endsWith dir (str "/tasks/archive") = true <-> exists r, dir = r ++ str "/tasks/archive".
Proof. apply endsWith_app. Qed.

Lemma active_underTasks (dir : jsstring) : isActiveLocation dir -> underTasks dir.
Proof.
  unfold underTasks. intros [->|[r ->]].
  - vm_compute. apply list_elem_of_here.
  - change (str "/tasks") with (47 :: str "tasks"). rewrite split_app.
    apply elem_of_app. right. vm_compute. apply list_elem_of_here.
Qed.

Lemma archive_underTasks (dir r : jsstring) :
  dir = r ++ str "/tasks/archive" -> underTasks dir.
Proof.
  intros ->. unfold underTasks.
  change (str "/tasks/archive") with (47 :: str "tasks/archive"). rewrite split_app.
  apply elem_of_app. right. vm_compute. apply list_elem_of_here.
Qed.

Lemma newCalls_refl (v : Vault) : newCalls v v = [].
Proof. unfold newCalls. by rewrite drop_all. Qed.

Lemma newCalls_app (v v' : Vault) (l : list call) :
  calls v' = calls v ++ l -> newCalls v v' = l.
Proof. unfold newCalls. intros ->. by rewrite drop_app_length. Qed.

Lemma archiveNote_inactive (v : Vault) (file : N) :
  ~ (exists dir, parentDir v file = Some dir /\ isActiveLocation dir) ->
  archiveNote file v = (Returned tt, v).
Proof.
  intros H. unfold archiveNote.
  destruct (parentDir v file) as [[|c dir]|]; try reflexivity.
  destruct (negb _ && _) eqn:E; [reflexivity|].
  exfalso. apply H. exists (c :: dir). split; [reflexivity | by apply active_test].
Qed.

Lemma archiveNote_active (v : Vault) (file : N) (dir : jsstring) :
  parentDir v file = Some dir -> isActiveLocation dir ->
  archiveNote file v =
    ((if getAbstractFileByPath v (dir ++ str "/archive") then mret tt
      else createFolder (dir ++ str "/archive")) ;;
     renameFile file ((dir ++ str "/archive") ++ str "/" ++ fileName v file)) v.
Proof.
  intros Hp Ha. unfold archiveNote. rewrite Hp.
  pose proof (active_nonempty _ Ha). apply active_test in Ha.
  destruct dir; [done|]. by rewrite Ha.
Qed.

Lemma unarchiveNote_elsewhere (v : Vault) (file : N) :
  ~ (exists dir r, parentDir v file = Some dir /\ dir = r ++ str "/tasks/archive") ->
  unarchiveNote file v = (Returned tt, v).
Proof.
  intros H. unfold unarchiveNote.
  destruct (parentDir v file) as [[|c dir]|]; try reflexivity.
  destruct (endsWith _ _) eqn:E; [|reflexivity].
  exfalso. apply archive_test in E as [r Hr]. apply H. by exists (c :: dir), r.
Qed.

Lemma getAbstractFileByPath_longer (v : Vault) (path suffix : jsstring) :
  suffix <> [] ->
  getAbstractFileByPath (set_folders (fun s => {[path]} ∪ s) (record (CreateFolder path) v))
    (path ++ suffix)
  = getAbstractFileByPath v (path ++ suffix).
Proof.
  intros Hs. unfold getAbstractFileByPath. simpl. f_equal.
  apply bool_decide_ext. rewrite elem_of_union, elem_of_singleton.
  split; [|tauto]. intros [H|H]; [|done].
  exfalso. apply Hs. apply (f_equal length) in H. rewrite length_app in H.
  destruct suffix; [done|]. simpl in H. lia.
Qed.

Lemma archiveNote_moves (v : Vault) (file : N) (dir : jsstring) :
  parentDir v file = Some dir -> isActiveLocation dir ->
  let r := archiveNote file v in
  let archivePath := dir ++ str "/archive" in
  let newPath := archivePath ++ str "/" ++ fileName v file in
  newCalls v r.2
  = (if getAbstractFileByPath v archivePath then [] else [CreateFolder archivePath])
    ++ [RenameFile file newPath]
  /\ (getAbstractFileByPath v archivePath = false -> archivePath ∈ folders r.2)
  /\ (getAbstractFileByPath v newPath = false ->
      r.1 = Returned tt /\ paths r.2 !! file = Some newPath).
Proof.
  intros Hp Ha r archivePath newPath. subst r.
  rewrite (archiveNote_active _ _ _ Hp Ha). fold archivePath. fold newPath.
  unfold mbind, M_bind, bind, mret, M_ret, ret.
  destruct (getAbstractFileByPath v archivePath) eqn:Hex.
  - unfold renameFile.
    change (getAbstractFileByPath (record (RenameFile file newPath) v) newPath)
      with (getAbstractFileByPath v newPath).
    split; [|split].
    + destruct (getAbstractFileByPath v newPath); simpl; by apply newCalls_app.
    + discriminate.
    + intros ->. simpl. split; [done | apply lookup_insert_eq].
  - unfold createFolder.
    change (getAbstractFileByPath (record (CreateFolder archivePath) v) archivePath)
      with (getAbstractFileByPath v archivePath).
    rewrite Hex. unfold renameFile.
    match goal with |- context [getAbstractFileByPath (record ?c ?w) newPath] =>
      change (getAbstractFileByPath (record c w) newPath)
        with (getAbstractFileByPath w newPath) end.
    assert (Hlong : getAbstractFileByPath
                      (set_folders (fun s => {[archivePath]} ∪ s)
                         (record (CreateFolder archivePath) v)) newPath
                    = getAbstractFileByPath v newPath)
      by (by apply getAbstractFileByPath_longer).
    rewrite Hlong.
    split; [|split].
    + destruct (getAbstractFileByPath v newPath); simpl; apply newCalls_app;
        simpl; by rewrite <- app_assoc.
    + intros _. destruct (getAbstractFileByPath v newPath); simpl;
        apply elem_of_union; left; by apply elem_of_singleton.
    + intros ->. simpl. split; [done | apply lookup_insert_eq].
Qed.

(** C6: with an archival status the placement moves the file into the
    [archive] folder under its parent, creating that folder when the path is
    free, exactly when the parent is an active [tasks] location; a file that
    is already in an archive location stays, and a file with no [tasks]
    folder on its path stays whatever the status. *)
Theorem archival_placement (v : Vault) (file : N) (status : jsstring) :
  isArchiveStatus status = true ->
  let r := resolvePlacement file status v in
  let active := exists dir, parentDir v file = Some dir /\ isActiveLocation dir in
  ((exists p, RenameFile file p ∈ newCalls v r.2) <-> active)
  /\ (forall dir, parentDir v file = Some dir -> isActiveLocation dir ->
        let archivePath := dir ++ str "/archive" in
        let newPath := archivePath ++ str "/" ++ fileName v file in
        newCalls v r.2
        = (if getAbstractFileByPath v archivePath then [] else [CreateFolder archivePath])
          ++ [RenameFile file newPath]
        /\ (getAbstractFileByPath v archivePath = false -> archivePath ∈ folders r.2)
        /\ (getAbstractFileByPath v newPath = false ->
            r.1 = Returned tt /\ paths r.2 !! file = Some newPath))
  /\ (~ active -> r = (Returned tt, v))
  /\ (forall dir, parentDir v file = Some dir -> isArchiveLocation dir ->
        r = (Returned tt, v))
  /\ (forall status', (forall dir, parentDir v file = Some dir -> ~ underTasks dir) ->
        resolvePlacement file status' v = (Returned tt, v)).
Proof.
  intros Hst r active. subst r.
  assert (resolvePlacement file status v = archiveNote file v) as ->
    by (unfold resolvePlacement; by rewrite Hst).
  split; [|split; [|split; [|split]]].
  - split.
    + intros [p Hp].
      destruct (parentDir v file) as [dir|] eqn:Hd.
      * destruct (negb (endsWith dir (str "/tasks")) && negb (bool_decide (dir = str "tasks")))
          eqn:E.
        -- rewrite archiveNote_inactive in Hp.
           ++ rewrite newCalls_refl in Hp. by apply elem_of_nil in Hp.
           ++ intros (d & Hd' & Ha). rewrite Hd in Hd'. injection Hd' as <-.
              apply active_test in Ha. congruence.
        -- exists dir. split; [done | by apply active_test].
      * rewrite archiveNote_inactive in Hp.
        -- rewrite newCalls_refl in Hp. by apply elem_of_nil in Hp.
        -- intros (d & Hd' & _). congruence.
    + intros (dir & Hd & Ha).
      destruct (archiveNote_moves _ _ _ Hd Ha) as (Hc & _).
      eexists. rewrite Hc. apply elem_of_app. right. apply list_elem_of_here.
  - intros dir Hd Ha. apply (archiveNote_moves _ _ _ Hd Ha).
  - apply archiveNote_inactive.
  - intros dir Hd Harch. apply archiveNote_inactive.
    intros (d & Hd' & Ha). rewrite Hd in Hd'. injection Hd' as <-.
    by apply archive_not_active in Harch.
  - intros status' Hnot. unfold resolvePlacement. destruct (isArchiveStatus status').
    + apply archiveNote_inactive. intros (d & Hd & Ha).
      by apply (Hnot _ Hd), active_underTasks.
    + apply unarchiveNote_elsewhere. intros (d & r & Hd & Hr).
      by apply (Hnot _ Hd), (archive_underTasks _ r).
Qed.

Lemma archival_placement_witness :
  let v := itemAt (str "projects/tasks/x.md") [str "projects"; str "projects/tasks"] in
  let r := resolvePlacement 1 (str "done") v in
  paths r.2 !! 1 = Some (str "projects/tasks/archive/x.md")
  /\ calls r.2 = [CreateFolder (str "projects/tasks/archive");
                  RenameFile 1 (str "projects/tasks/archive/x.md")].
Proof.
  intros v r.
  assert (Hst : isArchiveStatus (str "done") = true) by (vm_compute; reflexivity).
  destruct (archival_placement v 1 (str "done") Hst) as (_ & H & _).
  assert (Hd : parentDir v 1 = Some (str "projects/tasks")) by (vm_compute; reflexivity).
  assert (Ha : isActiveLocation (str "projects/tasks"))
    by (right; exists (str "projects"); reflexivity).
  destruct (H _ Hd Ha) as (Hc & _ & Hm).
  split.
  - apply Hm. vm_compute. reflexivity.
  - exact Hc.
Defined.

Lemma stripArchive_app (r : jsstring) : stripArchive (r ++ str "/archive") = r.
Proof.
  unfold stripArchive.
  assert (endsWith (r ++ str "/archive") (str "/archive") = true) as ->
    by (apply endsWith_app; by exists r).
  rewrite length_app. change (length (str "/archive")) with 8%nat.
  replace (length r + 8 - 8)%nat with (length r) by lia. by rewrite take_app_length.
Qed.

Lemma unarchiveNote_archived (v : Vault) (file : N) (dir : jsstring) :
  parentDir v file = Some dir -> endsWith dir (str "/tasks/archive") = true ->
  unarchiveNote file v
  = renameFile file (stripArchive dir ++ str "/" ++ fileName v file) v.
Proof.
  intros Hp He. unfold unarchiveNote. rewrite Hp.
  destruct dir; [vm_compute in He; discriminate|]. by rewrite He.
Qed.

Lemma unarchiveNote_moves (v : Vault) (file : N) (r : jsstring) :
  parentDir v file = Some (r ++ str "/tasks/archive") ->
  let newPath := (r ++ str "/tasks") ++ str "/" ++ fileName v file in
  newCalls v (unarchiveNote file v).2 = [RenameFile file newPath]
  /\ (getAbstractFileByPath v newPath = false ->
      (unarchiveNote file v).1 = Returned tt
      /\ paths (unarchiveNote file v).2 !! file = Some newPath).
Proof.
  intros Hp newPath.
  rewrite (unarchiveNote_archived _ _ _ Hp) by (apply endsWith_app; by exists r).
  change (str "/tasks/archive") with (str "/tasks" ++ str "/archive").
  rewrite (app_assoc r (str "/tasks") (str "/archive")), stripArchive_app.
  fold newPath. unfold renameFile.
  change (getAbstractFileByPath (record (RenameFile file newPath) v) newPath)
    with (getAbstractFileByPath v newPath).
  split.
  - destruct (getAbstractFileByPath v newPath); simpl; by apply newCalls_app.
  - intros ->. simpl. split; [done | apply lookup_insert_eq].
Qed.

(** C3, at an item in the archive of a root-level [tasks] folder: the
    parent [tasks/archive] is an archive location under the active location
    [tasks], yet with a status that is not archival the item stays where it
    is, as [unarchiveNote] asks for a path that ends in [/tasks/archive];
    the same item one folder deeper is moved up, and [archiveNote] does
    move an item out of the root-level [tasks] folder. *)
Theorem unarchive_skips_root_level_tasks :
  let v := itemAt (str "tasks/archive/x.md") [str "tasks"; str "tasks/archive"] in
  isArchiveLocation (str "tasks/archive")
  /\ parentDir v 1 = Some (str "tasks/archive")
  /\ isArchiveStatus (str "in-progress") = false
  /\ resolvePlacement 1 (str "in-progress") v = (Returned tt, v)
  /\ paths (resolvePlacement 1 (str "in-progress")
              (itemAt (str "projects/tasks/archive/x.md") [])).2 !! 1
     = Some (str "projects/tasks/x.md")
  /\ paths (resolvePlacement 1 (str "done") (itemAt (str "tasks/x.md") [str "tasks"])).2 !! 1
     = Some (str "tasks/archive/x.md").
Proof.
  intros v. split.
  - exists (str "tasks"). split; [by left | reflexivity].
  - vm_compute. repeat split; reflexivity.
Qed.

(** ** Sync engine *)

Lemma sameRecords_refl (v : Vault) : sameRecords v v.
Proof. repeat split. exists []. by rewrite app_nil_r. Qed.

Lemma sameRecords_trans (a b c : Vault) :
  sameRecords a b -> sameRecords b c -> sameRecords a c.
Proof.
  intros (F1 & T1 & L1 & K1 & l1 & C1) (F2 & T2 & L2 & K2 & l2 & C2).
  repeat split; try congruence. exists (l1 ++ l2). by rewrite C2, C1, app_assoc.
Qed.

Lemma sameRecords_record (c : call) (v : Vault) : sameRecords v (record c v).
Proof. repeat split. by exists [c]. Qed.

Lemma createFolder_sameRecords (path : jsstring) (v : Vault) :
  sameRecords v (createFolder path v).2.
Proof.
  unfold createFolder. destruct (getAbstractFileByPath _ _); simpl;
    repeat split; by exists [CreateFolder path].
Qed.

Lemma renameFile_sameRecords (file : N) (newPath : jsstring) (v : Vault) :
  sameRecords v (renameFile file newPath v).2.
Proof.
  unfold renameFile. destruct (getAbstractFileByPath _ _); simpl;
    repeat split; by exists [RenameFile file newPath].
Qed.

Lemma archiveNote_sameRecords (file : N) (v : Vault) :
  sameRecords v (archiveNote file v).2.
Proof.
  unfold archiveNote.
  destruct (parentDir v file) as [[|c dir]|]; try apply sameRecords_refl.
  destruct (negb _ && _); [apply sameRecords_refl|].
  unfold mbind, M_bind, bind, mret, M_ret, ret.
  destruct (getAbstractFileByPath v _).
  - apply renameFile_sameRecords.
  - pose proof (createFolder_sameRecords ((c :: dir) ++ str "/archive") v) as H.
    destruct (createFolder _ v) as [[[]|] w]; simpl in H; [|exact H].
    eapply sameRecords_trans; [exact H | apply renameFile_sameRecords].
Qed.

Lemma unarchiveNote_sameRecords (file : N) (v : Vault) :
  sameRecords v (unarchiveNote file v).2.
Proof.
  unfold unarchiveNote.
  destruct (parentDir v file) as [[|c dir]|]; try apply sameRecords_refl.
  destruct (negb _); [apply sameRecords_refl | apply renameFile_sameRecords].
Qed.

Lemma resolvePlacement_sameRecords (file : N) (status : jsstring) (v : Vault) :
  sameRecords v (resolvePlacement file status v).2.
Proof.
  unfold resolvePlacement. destruct (isArchiveStatus status);
    [apply archiveNote_sameRecords | apply unarchiveNote_sameRecords].
Qed.

Section EngineFacts.

Variable settings : KSUSettings.

Lemma updateNote_unresolved (notePath columnName : jsstring) (v : Vault) :
  linkDest v !! notePath = None -> updateNote settings notePath columnName v = v.
Proof. intros H. unfold updateNote, updateNote_try. by rewrite H. Qed.

Lemma updateNote_skip (notePath columnName : jsstring) (file : N) (v : Vault) :
  linkDest v !! notePath = Some file ->
  needsUpdateOf settings v file columnName = false ->
  updateNote settings notePath columnName v = v.
Proof. intros H Hn. unfold updateNote, updateNote_try. by rewrite H, Hn. Qed.

Lemma updateNote_locked (notePath columnName : jsstring) (file : N) (v : Vault) :
  linkDest v !! notePath = Some file ->
  needsUpdateOf settings v file columnName = true ->
  file ∈ locked v ->
  updateNote_try settings notePath columnName v
  = (Thrown, record (ProcessFrontMatter file) v).
Proof.
  intros H Hn Hl. unfold updateNote_try. rewrite H, Hn. cbn [negb].
  unfold mbind, M_bind, bind, processFrontMatter.
  by rewrite bool_decide_eq_true_2.
Qed.

Lemma updateNote_writes (notePath columnName : jsstring) (file : N) (v : Vault) :
  linkDest v !! notePath = Some file ->
  needsUpdateOf settings v file columnName = true ->
  file ∉ locked v ->
  updateNote_try settings notePath columnName v
  = resolvePlacement file (targetStatus columnName) (written settings file columnName v).
Proof.
  intros H Hn Hl. unfold updateNote_try. rewrite H, Hn. cbn [negb].
  unfold mbind, M_bind, bind, processFrontMatter.
  by rewrite bool_decide_eq_false_2.
Qed.

(** After a write, whatever the placement does, the record is the written
    one, and the calls start with the [processFrontMatter]. *)
Lemma updateNote_written (notePath columnName : jsstring) (file : N) (v : Vault) :
  linkDest v !! notePath = Some file ->
  needsUpdateOf settings v file columnName = true ->
  file ∉ locked v ->
  let v' := updateNote settings notePath columnName v in
  frontmatter v' = frontmatter (written settings file columnName v)
  /\ text v' = text v /\ linkDest v' = linkDest v /\ locked v' = locked v
  /\ exists l, calls v' = calls v ++ ProcessFrontMatter file :: l.
Proof.
  intros H Hn Hl v'. subst v'. unfold updateNote.
  rewrite (updateNote_writes _ _ _ _ H Hn Hl).
  pose proof (resolvePlacement_sameRecords file (targetStatus columnName)
                (written settings file columnName v)) as (F & T & L & K & l & C).
  destruct (resolvePlacement _ _ _) as [[[]|] w]; simpl in *.
  - repeat split; try done. exists l. rewrite C. by rewrite <- app_assoc.
  - repeat split; try done. exists (l ++ [ConsoleError notePath]).
    rewrite C. by rewrite <- !app_assoc.
Qed.

(** Whatever happens, [updateNote] leaves the texts, the link table and the
    locks alone, and only adds calls. *)
Lemma updateNote_stable (notePath columnName : jsstring) (v : Vault) :
  let v' := updateNote settings notePath columnName v in
  text v' = text v /\ linkDest v' = linkDest v /\ locked v' = locked v
  /\ exists l, calls v' = calls v ++ l.
Proof.
  intros v'. subst v'.
  destruct (linkDest v !! notePath) as [file|] eqn:H.
  2:{ rewrite updateNote_unresolved by done. repeat split. exists []. by rewrite app_nil_r. }
  destruct (needsUpdateOf settings v file columnName) eqn:Hn.
  2:{ rewrite (updateNote_skip _ _ _ _ H Hn). repeat split. exists [].
      by rewrite app_nil_r. }
  destruct (decide (file ∈ locked v)) as [Hl|Hl].
  - unfold updateNote. rewrite (updateNote_locked _ _ _ _ H Hn Hl). simpl.
    repeat split. eexists. by rewrite <- app_assoc.
  - destruct (updateNote_written _ _ _ _ H Hn Hl) as (_ & T & L & K & l & C).
    repeat split; try done. eauto.
Qed.

Lemma needsUpdate_as_specified (columnName : jsstring) (s u i : value) :
  needsUpdate columnName s u i
  = needsUpdate_spec (isQuadrant columnName)
      s (VStr (targetStatus columnName))
      u (q_urgent (QUADRANT_MAP_get columnName))
      i (q_important (QUADRANT_MAP_get columnName)).
Proof.
  unfold needsUpdate, needsUpdate_spec. destruct (isQuadrant columnName); simpl.
  - by rewrite orb_assoc.
  - by rewrite orb_false_r.
Qed.

Lemma strictEq_cached (v : Vault) (file : N) (key : jsstring) (t : value) :
  t <> VNull -> t <> VObject ->
  strictEq (cached v file key) t = strictEq (storedOrNull v file key) t.
Proof.
  intros Hn Ho. unfold cached, storedOrNull, field, getProperty.
  destruct (frontmatter v !! file) as [fm|]; simpl; [|done].
  destruct (fm !! key) as [[]|]; try reflexivity.
  case_bool_decide; destruct t; done.
Qed.

Lemma q_flag_plain (q : property) :
  q_urgent q <> VNull /\ q_urgent q <> VObject
  /\ q_important q <> VNull /\ q_important q <> VObject.
Proof. by destruct q. Qed.

(** X16: for a pair whose link resolves, [updateNote] calls
    [processFrontMatter] exactly when [needsUpdate] holds, where
    [needsUpdate] is the specified formula over the status, [urgent] and
    [important] that the item's record holds ([null] where it holds none),
    with the quadrant test and the targets as the code computes them; when
    it is false the pair is skipped: the vault is left as it was, with no
    write and no placement call. *)
Theorem write_exactly_when_needed (notePath columnName : jsstring) (file : N) (v : Vault) :
  linkDest v !! notePath = Some file ->
  let v' := updateNote settings notePath columnName v in
  let need :=
    needsUpdate_spec (isQuadrant columnName)
      (storedOrNull v file (statusPropertyName settings)) (VStr (targetStatus columnName))
      (storedOrNull v file (str "urgent")) (q_urgent (QUADRANT_MAP_get columnName))
      (storedOrNull v file (str "important")) (q_important (QUADRANT_MAP_get columnName)) in
  ((exists f, ProcessFrontMatter f ∈ newCalls v v') <-> need = true)
  /\ (need = true -> head (newCalls v v') = Some (ProcessFrontMatter file))
  /\ (need = true -> file ∉ locked v ->
      frontmatter v' !! file
      = Some (writeFields settings columnName (default ∅ (frontmatter v !! file))))
  /\ (need = false -> v' = v /\ newCalls v v' = []).
Proof.
  intros H v' need.
  assert (Hneed : needsUpdateOf settings v file columnName = need).
  { unfold needsUpdateOf. rewrite needsUpdate_as_specified. subst need.
    unfold needsUpdate_spec.
    destruct (q_flag_plain (QUADRANT_MAP_get columnName)) as (? & ? & ? & ?).
    by rewrite !strictEq_cached. }
  clearbody need. subst need v'.
  assert (Hhead : needsUpdateOf settings v file columnName = true ->
            head (newCalls v (updateNote settings notePath columnName v))
            = Some (ProcessFrontMatter file)).
  { intros Hn. destruct (decide (file ∈ locked v)) as [Hl|Hl].
    - unfold updateNote. rewrite (updateNote_locked _ _ _ _ H Hn Hl).
      erewrite newCalls_app; [|simpl; by rewrite <- app_assoc]. reflexivity.
    - destruct (updateNote_written _ _ _ _ H Hn Hl) as (_ & _ & _ & _ & l & C).
      by rewrite (newCalls_app _ _ _ C). }
  split; [|split; [|split]].
  - split.
    + intros [f Hf]. destruct (needsUpdateOf settings v file columnName) eqn:Hn; [done|].
      rewrite (updateNote_skip _ _ _ _ H Hn), newCalls_refl in Hf.
      by apply elem_of_nil in Hf.
    + intros Hn. exists file. apply Hhead in Hn.
      destruct (newCalls _ _) as [|c l]; [discriminate|].
      injection Hn as ->. apply list_elem_of_here.
  - exact Hhead.
  - intros Hn Hl. destruct (updateNote_written _ _ _ _ H Hn Hl) as (F & _).
    rewrite F. simpl. apply lookup_insert_eq.
  - intros Hn. rewrite (updateNote_skip _ _ _ _ H Hn). split; [done | apply newCalls_refl].
Qed.

End EngineFacts.

Lemma write_exactly_when_needed_witness :
  updateNote DEFAULT_SETTINGS (str "x") (str "done") doneVault = doneVault
  /\ head (newCalls doneVault (updateNote DEFAULT_SETTINGS (str "x") (str "todo") doneVault))
     = Some (ProcessFrontMatter 1)
  /\ field (updateNote DEFAULT_SETTINGS (str "x") key_DoFirst doneVault) 1 (str "urgent")
     = Some (VBool true).
Proof.
  assert (H : linkDest doneVault !! str "x" = Some 1) by (vm_compute; reflexivity).
  split; [|split].
  - destruct (write_exactly_when_needed DEFAULT_SETTINGS (str "x") (str "done") 1 doneVault H)
      as (_ & _ & _ & Hskip).
    apply Hskip. vm_compute. reflexivity.
  - destruct (write_exactly_when_needed DEFAULT_SETTINGS (str "x") (str "todo") 1 doneVault H)
      as (_ & Hhead & _).
    apply Hhead. vm_compute. reflexivity.
  - destruct (write_exactly_when_needed DEFAULT_SETTINGS (str "x") key_DoFirst 1 doneVault H)
      as (_ & _ & Hw & _).
    unfold field. rewrite Hw.
    + vm_compute. reflexivity.
    + vm_compute. reflexivity.
    + vm_compute. intros Hin. inversion Hin.
Defined.

(** C4, at the column name [constructor] and an item whose status is
    already [constructor]: the name is none of the four reserved ones, so
    by the specified formula, with target status [constructor] and no
    quadrant, nothing needs an update and the pair is skipped; the code
    finds the name on [Object.prototype], compares the status with
    [backlog] and calls [processFrontMatter]. *)
Theorem settled_item_under_inherited_name_is_written :
  linkDest constructorVault !! str "x" = Some 1
  /\ reserved (str "constructor") = false
  /\ storedOrNull constructorVault 1 (str "status") = VStr (str "constructor")
  /\ needsUpdate_spec (reserved (str "constructor"))
       (storedOrNull constructorVault 1 (str "status")) (VStr (str "constructor"))
       (storedOrNull constructorVault 1 (str "urgent")) VUndefined
       (storedOrNull constructorVault 1 (str "important")) VUndefined = false
  /\ needsUpdateOf DEFAULT_SETTINGS constructorVault 1 (str "constructor") = true
  /\ newCalls constructorVault
       (updateNote DEFAULT_SETTINGS (str "x") (str "constructor") constructorVault)
     = [ProcessFrontMatter 1]
  /\ field (updateNote DEFAULT_SETTINGS (str "x") (str "constructor") constructorVault)
       1 (str "status") = Some (VStr (str "backlog")).
Proof. vm_compute. repeat split; reflexivity. Qed.

(** C8, at the column name [constructor]: the name is none of the four
    reserved ones, yet the write replaces the item's [urgent] and adds
    [important], both [undefined], because the code takes the column for a
    quadrant; a field that is neither is kept. *)
Theorem inherited_name_overwrites_the_flags :
  let v' := updateNote DEFAULT_SETTINGS (str "x") (str "constructor") constructorVault in
  reserved (str "constructor") = false
  /\ field constructorVault 1 (str "urgent") = Some (VBool true)
  /\ field v' 1 (str "urgent") = Some VUndefined
  /\ field constructorVault 1 (str "important") = None
  /\ field v' 1 (str "important") = Some VUndefined.
Proof. vm_compute. repeat split; reflexivity. Qed.

Section FrameFacts.

Variable settings : KSUSettings.

Lemma setProperty_other (key other : jsstring) (x : value) (fm : gmap jsstring value) :
  other <> key -> setProperty key x fm !! other = fm !! other.
Proof.
  intros H. unfold setProperty. destruct (_ && _); [done|]. by rewrite lookup_insert_ne.
Qed.

Lemma writeFields_other (columnName : jsstring) (fm : gmap jsstring value) (key : jsstring) :
  key <> statusPropertyName settings ->
  (isQuadrant columnName = true -> key <> str "urgent" /\ key <> str "important") ->
  writeFields settings columnName fm !! key = fm !! key.
Proof.
  intros Hs Hq. unfold writeFields. destruct (isQuadrant columnName).
  - destruct (Hq eq_refl) as [Hu Hi]. by rewrite !setProperty_other.
  - by rewrite setProperty_other.
Qed.

Lemma updateNote_frontmatter (notePath columnName : jsstring) (v : Vault) :
  let v' := updateNote settings notePath columnName v in
  frontmatter v' = frontmatter v
  \/ exists file, linkDest v !! notePath = Some file
       /\ frontmatter v'
          = <[file := writeFields settings columnName (default ∅ (frontmatter v !! file))]>
              (frontmatter v).
Proof.
  intros v'. subst v'.
  destruct (linkDest v !! notePath) as [file|] eqn:H.
  2:{ left. by rewrite updateNote_unresolved. }
  destruct (needsUpdateOf settings v file columnName) eqn:Hn.
  2:{ left. by rewrite (updateNote_skip _ _ _ _ _ H Hn). }
  destruct (decide (file ∈ locked v)) as [Hl|Hl].
  - left. unfold updateNote. by rewrite (updateNote_locked _ _ _ _ _ H Hn Hl).
  - right. exists file. split; [done|].
    by destruct (updateNote_written _ _ _ _ _ H Hn Hl) as (F & _).
Qed.

(** X17: a run of [updateNote] keeps every frontmatter field of the item
    other than the status property, and other than [urgent] and [important]
    when the code takes the column for a quadrant ([columnName in
    QUADRANT_MAP]); so for a column that the code takes for no quadrant
    [urgent] and [important] keep their values (unless one of them is the
    configured status property); the records of the other files are kept
    whole. *)
Theorem update_keeps_other_fields (notePath columnName : jsstring) (file : N) (v : Vault) :
  linkDest v !! notePath = Some file ->
  let v' := updateNote settings notePath columnName v in
  (forall key,
      key <> statusPropertyName settings ->
      (isQuadrant columnName = true -> key <> str "urgent" /\ key <> str "important") ->
      field v' file key = field v file key)
  /\ (isQuadrant columnName = false ->
      forall key, key = str "urgent" \/ key = str "important" ->
                  key <> statusPropertyName settings ->
                  field v' file key = field v file key)
  /\ (forall other, other <> file -> frontmatter v' !! other = frontmatter v !! other).
Proof.
  intros H v'. subst v'.
  set (v' := updateNote settings notePath columnName v).
  assert (Hkeys : forall key,
      key <> statusPropertyName settings ->
      (isQuadrant columnName = true -> key <> str "urgent" /\ key <> str "important") ->
      field v' file key = field v file key).
  { intros key Hs Hq. unfold field. subst v'.
    destruct (updateNote_frontmatter notePath columnName v) as [->|(f & Hf & ->)]; [done|].
    rewrite H in Hf. injection Hf as <-.
    rewrite lookup_insert_eq. simpl. rewrite writeFields_other by done.
    by destruct (frontmatter v !! file). }
  split; [exact Hkeys|]. split.
  - intros Hq key _ Hs. apply Hkeys; [done|]. by rewrite Hq.
  - intros other Hne. subst v'.
    destruct (updateNote_frontmatter notePath columnName v) as [->|(f & Hf & ->)]; [done|].
    rewrite H in Hf. injection Hf as <-. by rewrite lookup_insert_ne.
Qed.

(** C7: the loop goes on to the remaining pairs after every pair, also
    after one whose update throws: the error is reported and the vault is
    carried on as the throw left it; and when the placement throws after a
    write, the written record stays. *)
Theorem failures_stay_with_their_item :
  (forall before u after v,
      updateAll settings (before ++ u :: after) v
      = updateAll settings after
          (updateNote settings (linkPath u) (columnName u) (updateAll settings before v)))
  /\ (forall u after v v',
      updateNote_try settings (linkPath u) (columnName u) v = (Thrown, v') ->
      updateAll settings (u :: after) v
      = updateAll settings after (record (ConsoleError (linkPath u)) v'))
  /\ (forall notePath columnName file v,
      linkDest v !! notePath = Some file ->
      needsUpdateOf settings v file columnName = true ->
      file ∉ locked v ->
      (resolvePlacement file (targetStatus columnName)
         (written settings file columnName v)).1 = Thrown ->
      let v' := updateNote settings notePath columnName v in
      frontmatter v' !! file
      = Some (writeFields settings columnName (default ∅ (frontmatter v !! file)))
      /\ last (calls v') = Some (ConsoleError notePath)).
Proof.
  split; [|split].
  - intros before u after v. unfold updateAll. by rewrite foldl_app.
  - intros u after v v' Ht. unfold updateAll. simpl. unfold updateNote. by rewrite Ht.
  - intros notePath columnName file v H Hn Hl Hthrow v'. split.
    + destruct (updateNote_written _ _ _ _ _ H Hn Hl) as (F & _).
      subst v'. rewrite F. simpl. apply lookup_insert_eq.
    + subst v'. unfold updateNote. rewrite (updateNote_writes _ _ _ _ _ H Hn Hl).
      destruct (resolvePlacement _ _ _) as [[[]|] w]; [discriminate|].
      simpl. apply last_snoc.
Qed.

End FrameFacts.

Lemma update_keeps_other_fields_witness :
  field (updateNote DEFAULT_SETTINGS (str "x") (str "done") collisionVault) 1 (str "tags")
  = Some (VArray [str "work"]).
Proof.
  assert (H : linkDest collisionVault !! str "x" = Some 1) by (vm_compute; reflexivity).
  destruct (update_keeps_other_fields DEFAULT_SETTINGS (str "x") (str "done") 1
              collisionVault H) as (Hk & _).
  rewrite Hk.
  - vm_compute. reflexivity.
  - vm_compute. discriminate.
  - vm_compute. discriminate.
Defined.

Lemma failures_stay_with_their_item_witness :
  let v' := updateAll DEFAULT_SETTINGS
              [Update (str "x") (str "done"); Update (str "y") (str "done")]
              collisionVault in
  field v' 1 (str "status") = Some (VStr (str "done"))
  /\ paths v' !! 1 = Some (str "tasks/x.md")
  /\ ConsoleError (str "x") ∈ calls v'
  /\ field v' 3 (str "status") = Some (VStr (str "done")).
Proof.
  destruct (failures_stay_with_their_item DEFAULT_SETTINGS) as (_ & _ & Hmove).
  assert (H : linkDest collisionVault !! str "x" = Some 1) by (vm_compute; reflexivity).
  assert (Hn : needsUpdateOf DEFAULT_SETTINGS collisionVault 1 (str "done") = true)
    by (vm_compute; reflexivity).
  assert (Hl : 1 ∉ locked collisionVault) by (vm_compute; intros Hin; inversion Hin).
  destruct (Hmove (str "x") (str "done") 1 collisionVault H Hn Hl) as (Hfm & _).
  { vm_compute. reflexivity. }
  intros v'. split; [|split; [|split]].
  - vm_compute. reflexivity.
  - vm_compute. reflexivity.
  - vm_compute. apply list_elem_of_further, list_elem_of_further, list_elem_of_here.
  - vm_compute. reflexivity.
Defined.

(** ** Idempotence of a run *)

(** C1, as stated, at a board that links one item under two columns: the
    board text is the same for both runs, and the second run writes the
    item's metadata again, twice. *)
Lemma second_run_writes_again :
  let p1 := syncBoard DEFAULT_SETTINGS 10 duplicateLinkPlugin in
  let p2 := syncBoard DEFAULT_SETTINGS 10 p1 in
  text (vault p1) !! 10 = text (vault duplicateLinkPlugin) !! 10
  /\ pairsOf (vault p1) 10 = [Update (str "x") (str "a"); Update (str "x") (str "b")]
  /\ field (vault p1) 1 (str "status") = Some (VStr (str "b"))
  /\ newCalls (vault p1) (vault p2) = [ProcessFrontMatter 1; ProcessFrontMatter 1].
Proof. vm_compute. repeat split; reflexivity. Qed.

(** The other conditions of the amended C1 are needed as well: a column
    named after an inherited property, a status property called [urgent]
    under a quadrant column, an item the host cannot rewrite, and a status
    property called [__proto__] each make the second run call
    [processFrontMatter] again. *)
Lemma idempotence_conditions_needed :
  let twice (settings : KSUSettings) (p : Plugin) :=
    newCalls (vault (syncBoard settings 10 p))
             (vault (syncBoard settings 10 (syncBoard settings 10 p))) in
  twice DEFAULT_SETTINGS (boardPlugin (str "## toString" ++ 10 :: str "- [[x]]") [])
    = [ProcessFrontMatter 1]
  /\ twice (MkSettings (str "urgent") false false)
           (boardPlugin (str "## " ++ key_DoFirst ++ 10 :: str "- [[x]]") [])
    = [ProcessFrontMatter 1]
  /\ twice DEFAULT_SETTINGS (boardPlugin (str "## todo" ++ 10 :: str "- [[x]]") [1])
    = [ProcessFrontMatter 1; ConsoleError (str "x")]
  /\ twice (MkSettings (str "__proto__") false false)
           (boardPlugin (str "## todo" ++ 10 :: str "- [[x]]") [])
    = [ProcessFrontMatter 1].
Proof. vm_compute. repeat split; reflexivity. Qed.

Section Idempotence.

Variable settings : KSUSettings.

Lemma needsUpdateOf_ext (v w : Vault) (file : N) (columnName : jsstring) :
  frontmatter w !! file = frontmatter v !! file ->
  needsUpdateOf settings w file columnName = needsUpdateOf settings v file columnName.
Proof. intros H. unfold needsUpdateOf, cached, field. by rewrite H. Qed.

Lemma strictEq_refl_str (s : jsstring) : strictEq (VStr s) (VStr s) = true.
Proof. simpl. by apply bool_decide_eq_true. Qed.

Lemma strictEq_refl_bool (b : bool) : strictEq (VBool b) (VBool b) = true.
Proof. simpl. by apply bool_decide_eq_true. Qed.

Lemma setProperty_insert (key : jsstring) (x : value) (fm : gmap jsstring value) :
  key <> str "__proto__" -> setProperty key x fm = <[key := x]> fm.
Proof. intros H. unfold setProperty. by rewrite bool_decide_eq_false_2. Qed.

Lemma written_settles (v : Vault) (file : N) (columnName : jsstring)
      (fm : gmap jsstring value) :
  statusPropertyName settings <> str "__proto__" ->
  QUADRANT_MAP_get columnName <> Inherited ->
  (isQuadrant columnName = true ->
   statusPropertyName settings <> str "urgent"
   /\ statusPropertyName settings <> str "important") ->
  frontmatter v !! file = Some (writeFields settings columnName fm) ->
  needsUpdateOf settings v file columnName = false.
Proof.
  intros Hproto Hinh Hsp Hfm. unfold needsUpdateOf, needsUpdate, cached. rewrite Hfm.
  unfold writeFields, getProperty, isQuadrant in *.
  rewrite (setProperty_insert (statusPropertyName settings)) by done.
  destruct (QUADRANT_MAP_get columnName) as [q| |] eqn:Hq; [|done|].
  - destruct (Hsp eq_refl) as [Hu Hi].
    assert (Hui : str "urgent" <> str "important") by (vm_compute; discriminate).
    rewrite !setProperty_insert by (vm_compute; discriminate).
    rewrite !lookup_insert_ne by done. rewrite !lookup_insert_eq.
    rewrite (lookup_insert_ne _ (str "important") (str "urgent")) by done.
    rewrite lookup_insert_eq. simpl.
    by rewrite !bool_decide_eq_true_2.
  - rewrite lookup_insert_eq. simpl. by rewrite bool_decide_eq_true_2.
Qed.

Lemma updateNote_settled_noop (u : update) (v : Vault) :
  settled settings v u -> updateNote settings (linkPath u) (columnName u) v = v.
Proof.
  intros Hs. destruct (linkDest v !! linkPath u) as [file|] eqn:H.
  - by apply (updateNote_skip _ _ _ file), Hs.
  - by apply updateNote_unresolved.
Qed.

Lemma updateAll_settled_noop (updates : list update) (v : Vault) :
  (forall u, u ∈ updates -> settled settings v u) -> updateAll settings updates v = v.
Proof.
  induction updates as [|u rest IH]; intros Hs; [reflexivity|].
  unfold updateAll in *. simpl.
  rewrite updateNote_settled_noop by (apply Hs, list_elem_of_here).
  apply IH. intros u' Hu'. by apply Hs, list_elem_of_further.
Qed.

Lemma updateNote_settles (u : update) (v : Vault) :
  statusPropertyName settings <> str "__proto__" ->
  properColumns settings [u] -> writable v [u] ->
  settled settings (updateNote settings (linkPath u) (columnName u) v) u.
Proof.
  intros Hproto Hp Hw file Hl.
  destruct (updateNote_stable settings (linkPath u) (columnName u) v) as (_ & L & _).
  rewrite L in Hl.
  destruct (needsUpdateOf settings v file (columnName u)) eqn:Hn.
  - assert (Hlk : file ∉ locked v) by (by eapply Hw; [apply list_elem_of_here|]).
    destruct (updateNote_written _ _ _ _ _ Hl Hn Hlk) as (F & _).
    destruct (Hp u (list_elem_of_here _ _)) as [Hinh Hsp].
    eapply written_settles; [done | done | done |]. rewrite F. simpl. apply lookup_insert_eq.
  - by rewrite (updateNote_skip _ _ _ _ _ Hl Hn).
Qed.

Lemma updateNote_keeps_settled (u u' : update) (v : Vault) :
  settled settings v u' ->
  (forall file, linkDest v !! linkPath u = Some file ->
                linkDest v !! linkPath u' = Some file -> columnName u' = columnName u) ->
  settled settings (updateNote settings (linkPath u) (columnName u) v) u'.
Proof.
  intros Hs Hcol file Hl.
  destruct (updateNote_stable settings (linkPath u) (columnName u) v) as (_ & L & _).
  rewrite L in Hl.
  destruct (decide (linkDest v !! linkPath u = Some file)) as [Hsame|Hdiff].
  - pose proof (Hs file Hl) as Hn. pose proof (Hcol file Hsame Hl) as Heq.
    rewrite Heq in Hn. rewrite (updateNote_skip _ _ _ _ _ Hsame Hn).
    by apply Hs.
  - rewrite (needsUpdateOf_ext v); [by apply Hs|].
    destruct (updateNote_frontmatter settings (linkPath u) (columnName u) v)
      as [->|(f & Hf & ->)]; [done|].
    rewrite lookup_insert_ne; [done|]. congruence.
Qed.

Lemma updateAll_stable (updates : list update) (v : Vault) :
  text (updateAll settings updates v) = text v
  /\ linkDest (updateAll settings updates v) = linkDest v
  /\ locked (updateAll settings updates v) = locked v.
Proof.
  revert v. induction updates as [|u rest IH]; intros v; [done|].
  unfold updateAll in *. simpl.
  destruct (IH (updateNote settings (linkPath u) (columnName u) v)) as (T & L & K).
  destruct (updateNote_stable settings (linkPath u) (columnName u) v) as (T' & L' & K' & _).
  repeat split; congruence.
Qed.

Lemma updateAll_keeps_settled (rest : list update) (u : update) (v : Vault) :
  settled settings v u ->
  (forall u' file, u' ∈ rest -> linkDest v !! linkPath u' = Some file ->
                   linkDest v !! linkPath u = Some file -> columnName u = columnName u') ->
  settled settings (updateAll settings rest v) u.
Proof.
  revert v. induction rest as [|u' rest IH]; intros v Hs Hcol; [exact Hs|].
  unfold updateAll in *. simpl.
  destruct (updateNote_stable settings (linkPath u') (columnName u') v) as (_ & L & _).
  apply IH.
  - apply updateNote_keeps_settled; [done|]. intros file. apply Hcol, list_elem_of_here.
  - intros u'' file Hin. rewrite L. by apply Hcol, list_elem_of_further.
Qed.

Lemma updateAll_settles (updates : list update) (v : Vault) :
  statusPropertyName settings <> str "__proto__" ->
  oneColumnPerItem v updates -> properColumns settings updates -> writable v updates ->
  forall u, u ∈ updates -> settled settings (updateAll settings updates v) u.
Proof.
  intros Hproto. revert v. induction updates as [|u0 rest IH]; intros v H1 Hp Hw u Hu.
  { by apply elem_of_nil in Hu. }
  destruct (updateNote_stable settings (linkPath u0) (columnName u0) v) as (_ & L & K & _).
  change (updateAll settings (u0 :: rest) v)
    with (updateAll settings rest (updateNote settings (linkPath u0) (columnName u0) v)).
  apply elem_of_cons in Hu as [->|Hu].
  - apply updateAll_keeps_settled.
    + apply updateNote_settles; [done| |].
      * intros u' ->%list_elem_of_singleton. apply Hp, list_elem_of_here.
      * intros u' file ->%list_elem_of_singleton. apply Hw, list_elem_of_here.
    + intros u' file Hin. rewrite L. intros H' H0.
      eapply (H1 u0 u' file); [apply list_elem_of_here | by apply list_elem_of_further | done..].
  - apply IH; [| | |done].
    + intros u1 u2 file Hin1 Hin2. rewrite L.
      apply H1; by apply list_elem_of_further.
    + intros u' Hin. by apply Hp, list_elem_of_further.
    + intros u' file Hin. rewrite L, K. by apply Hw, list_elem_of_further.
Qed.

Lemma syncBoard_unreadable (board : N) (p : Plugin) :
  text (vault p) !! board = None -> syncBoard settings board p = p.
Proof. intros H. unfold syncBoard. by rewrite H. Qed.

Lemma syncBoard_no_pairs (board : N) (p : Plugin) (content : jsstring) :
  text (vault p) !! board = Some content -> parseBoardContent content = [] ->
  syncBoard settings board p = p.
Proof. intros H He. unfold syncBoard. by rewrite H, He. Qed.

Lemma syncBoard_pairs (board : N) (p : Plugin) (content : jsstring) :
  text (vault p) !! board = Some content -> parseBoardContent content <> [] ->
  syncBoard settings board p
  = MkPlugin false (boardPaths p) (updateAll settings (parseBoardContent content) (vault p)).
Proof.
  intros H He. unfold syncBoard. rewrite H.
  by rewrite bool_decide_eq_false_2.
Qed.

(** C1, amended: when no item is linked under two different column names,
    no column bears a name inherited from [Object.prototype], the status
    property is not [__proto__], and neither [urgent] nor [important] where
    a column is a quadrant, and the host can rewrite every linked item, a
    run leaves the board text as it was and a second run changes nothing:
    it makes no host call at all, so no metadata write and no move. *)
Theorem second_run_is_idle (board : N) (p : Plugin) :
  statusPropertyName settings <> str "__proto__" ->
  oneColumnPerItem (vault p) (pairsOf (vault p) board) ->
  properColumns settings (pairsOf (vault p) board) ->
  writable (vault p) (pairsOf (vault p) board) ->
  let p1 := syncBoard settings board p in
  let p2 := syncBoard settings board p1 in
  text (vault p1) !! board = text (vault p) !! board
  /\ p2 = p1
  /\ newCalls (vault p1) (vault p2) = [].
Proof.
  intros Hproto H1 Hp Hw p1 p2.
  assert (Hgoal : text (vault p1) !! board = text (vault p) !! board /\ p2 = p1).
  { subst p2 p1. unfold pairsOf in *.
    destruct (text (vault p) !! board) as [content|] eqn:Ht.
    2:{ rewrite !(syncBoard_unreadable _ _ Ht). by rewrite Ht. }
    destruct (decide (parseBoardContent content = [])) as [He|He].
    { rewrite !(syncBoard_no_pairs _ _ _ Ht He). by rewrite Ht. }
    rewrite (syncBoard_pairs _ _ _ Ht He).
    destruct (updateAll_stable (parseBoardContent content) (vault p)) as (T & _).
    split; [simpl; by rewrite T|].
    rewrite (syncBoard_pairs _ _ content); [|simpl; by rewrite T|done].
    simpl. f_equal. apply updateAll_settled_noop.
    by apply updateAll_settles. }
  destruct Hgoal as [Htext Heq]. repeat split; [done..|].
  rewrite Heq. apply newCalls_refl.
Qed.

End Idempotence.

Lemma second_run_is_idle_witness :
  syncBoard DEFAULT_SETTINGS 10 (syncBoard DEFAULT_SETTINGS 10 quadrantBoardPlugin)
  = syncBoard DEFAULT_SETTINGS 10 quadrantBoardPlugin.
Proof.
  assert (Hpairs : pairsOf (vault quadrantBoardPlugin) 10 = [Update (str "x") key_DoFirst])
    by (vm_compute; reflexivity).
  apply (second_run_is_idle DEFAULT_SETTINGS 10 quadrantBoardPlugin);
    [vm_compute; discriminate | rewrite Hpairs..].
  - intros u1 u2 file ->%list_elem_of_singleton ->%list_elem_of_singleton _ _. reflexivity.
  - intros u ->%list_elem_of_singleton. split.
    + vm_compute. discriminate.
    + intros _. split; vm_compute; discriminate.
  - intros u file ->%list_elem_of_singleton _. simpl. apply not_elem_of_empty.
Defined.

(** ** The suppression flag *)

(** C9, as stated, on two boards: a [modify] event for board [b.md] that
    arrives while the run for [a.md] is in [cachedRead] starts a second run;
    both runs then set the flag, the first to finish clears it, and the
    second is still in its loop with the flag cleared, so that a further
    [modify] event for a board starts a third run. *)
Lemma overlapping_runs_lose_the_flag :
  let early := exec DEFAULT_SETTINGS twoBoards [Modify (AFile 10); Modify (AFile 11)] in
  let h := exec DEFAULT_SETTINGS twoBoards
             [Modify (AFile 10); Modify (AFile 11); Resume 0; Resume 1; Resume 0; Resume 0] in
  inflight early = [Reading 10; Reading 11]
  /\ inflight h = [Updating [Update (str "y") (str "todo"); Update (str "z") (str "todo")]]
  /\ isUpdating (plugin h) = false
  /\ onModify (plugin h) (AFile 10) = Some 10
  /\ inflight (step DEFAULT_SETTINGS h (Modify (AFile 10)))
     = [Updating [Update (str "y") (str "todo"); Update (str "z") (str "todo")]; Reading 10].
Proof. vm_compute. repeat split; reflexivity. Qed.

Section Suppression.

Variable settings : KSUSettings.

Lemma onModify_suppressed (p : Plugin) (file : TAbstractFile) :
  isUpdating p = true -> onModify p file = None.
Proof. intros H. destruct file; simpl; [by rewrite H | done]. Qed.

Lemma modify_suppressed (h : Host) (file : TAbstractFile) :
  isUpdating (plugin h) = true -> step settings h (Modify file) = h.
Proof. intros H. simpl. by rewrite onModify_suppressed. Qed.

Lemma modifies_suppressed (h : Host) (events : list TAbstractFile) :
  isUpdating (plugin h) = true ->
  foldl (fun h f => step settings h (Modify f)) h events = h.
Proof.
  intros H. induction events as [|f events IH]; simpl; [done|].
  by rewrite onModify_suppressed.
Qed.

Lemma resume_in_loop (h : Host) (u : update) (rest : list update) :
  inflight h = [Updating (u :: rest)] ->
  step settings h (Resume 0)
  = MkHost (MkPlugin (isUpdating (plugin h)) (boardPaths (plugin h))
              (updateNote settings (linkPath u) (columnName u) (vault (plugin h))))
           [Updating rest].
Proof. intros H. simpl. by rewrite H. Qed.

Lemma resume_after_loop (h : Host) :
  inflight h = [Updating []] ->
  step settings h (Resume 0)
  = MkHost (MkPlugin false (boardPaths (plugin h)) (vault (plugin h))) [].
Proof. intros H. simpl. by rewrite H. Qed.

Lemma drain_loop (rest : list update) (h : Host) (schedule : list (list TAbstractFile)) :
  inflight h = [Updating rest] -> isUpdating (plugin h) = true ->
  length schedule = S (length rest) ->
  drain settings h schedule
  = MkHost (MkPlugin false (boardPaths (plugin h))
              (updateAll settings rest (vault (plugin h)))) [].
Proof.
  revert h schedule. induction rest as [|u rest IH]; intros h schedule Hr Hf Hlen.
  - destruct schedule as [|events [|? ?]]; try discriminate.
    unfold drain. cbn [foldl]. rewrite modifies_suppressed by done.
    by rewrite resume_after_loop.
  - destruct schedule as [|events schedule]; [discriminate|].
    unfold drain in *. cbn [foldl]. rewrite modifies_suppressed by done.
    rewrite (resume_in_loop _ _ _ Hr). rewrite IH; simpl; try done.
    by injection Hlen.
Qed.

(** C9, amended: while one run, alone in flight, is in its loop, after the
    board was read and gave at least one pair, the flag is set: a [modify]
    event arriving then starts no run and changes nothing, each resumption
    does the next pair and keeps the flag, and the resumption after the last
    pair clears it; so whatever events arrive between the pairs, and whether
    or not updates failed, the run ends with every pair processed, the flag
    cleared and no run in flight.  A run enters its loop with the flag set
    exactly when the board it read gives a pair. *)
Theorem flag_held_through_the_loop (h : Host) (rest : list update) :
  inflight h = [Updating rest] ->
  isUpdating (plugin h) = true ->
  (forall file, onModify (plugin h) file = None /\ step settings h (Modify file) = h)
  /\ (let h' := step settings h (Resume 0) in
      match rest with
      | u :: rest' =>
          inflight h' = [Updating rest'] /\ isUpdating (plugin h') = true
          /\ vault (plugin h') = updateNote settings (linkPath u) (columnName u) (vault (plugin h))
      | [] =>
          inflight h' = [] /\ isUpdating (plugin h') = false
          /\ vault (plugin h') = vault (plugin h)
      end)
  /\ (forall schedule, length schedule = S (length rest) ->
        let h' := drain settings h schedule in
        inflight h' = [] /\ isUpdating (plugin h') = false
        /\ vault (plugin h') = updateAll settings rest (vault (plugin h)))
  /\ (forall (p : Plugin) (board : N) (content : jsstring),
        isUpdating p = false -> text (vault p) !! board = Some content ->
        let h' := step settings (MkHost p [Reading board]) (Resume 0) in
        if bool_decide (parseBoardContent content = [])
        then h' = MkHost p []
        else inflight h' = [Updating (parseBoardContent content)]
             /\ isUpdating (plugin h') = true).
Proof.
  intros Hr Hf. split; [|split; [|split]].
  - intros file. split; [by apply onModify_suppressed | by apply modify_suppressed].
  - destruct rest as [|u rest'].
    + by rewrite (resume_after_loop _ Hr).
    + by rewrite (resume_in_loop _ _ _ Hr).
  - intros schedule Hlen. by rewrite (drain_loop _ _ _ Hr Hf Hlen).
  - intros p board content Hp Ht. simpl. rewrite Ht.
    by destruct (bool_decide (parseBoardContent content = [])).
Qed.

End Suppression.

Lemma flag_held_through_the_loop_witness :
  let h := exec DEFAULT_SETTINGS twoBoards [Modify (AFile 11); Resume 0] in
  let h' := drain DEFAULT_SETTINGS h [[AFile 10]; [AFile 10; AFile 11]; []] in
  inflight h' = [] /\ isUpdating (plugin h') = false
  /\ field (vault (plugin h')) 3 (str "status") = Some (VStr (str "todo")).
Proof.
  intros h h'.
  assert (Hr : inflight h
               = [Updating [Update (str "y") (str "todo"); Update (str "z") (str "todo")]])
    by (vm_compute; reflexivity).
  assert (Hf : isUpdating (plugin h) = true) by (vm_compute; reflexivity).
  destruct (flag_held_through_the_loop DEFAULT_SETTINGS h _ Hr Hf) as (_ & _ & Hd & _).
  destruct (Hd [[AFile 10]; [AFile 10; AFile 11]; []] eq_refl) as (H1 & H2 & _).
  split; [exact H1|]. split; [exact H2|]. vm_compute. reflexivity.
Defined.

(** * Further properties of the code *)

(** ** The parser on boards as text *)

Lemma split_plain (sep : N) (l : jsstring) : sep ∉ l -> split sep l = [l].
Proof.
  induction l as [|c l IH]; intros H; simpl; [done|].
  apply not_elem_of_cons in H as [Hc Hl].
  destruct (N.eqb_spec c sep) as [->|_]; [done|]. by rewrite IH.
Qed.

Lemma joinLines_cons (l l' : jsstring) (r : list jsstring) :
  joinLines (l :: l' :: r) = l ++ 10 :: joinLines (l' :: r).
Proof. reflexivity. Qed.

Lemma split_joinLines (l : jsstring) (r : list jsstring) :
  Forall (fun x => 10 ∉ x) (l :: r) -> split 10 (joinLines (l :: r)) = l :: r.
Proof.
  revert l. induction r as [|l' r IH]; intros l H.
  - simpl. rewrite app_nil_r. apply split_plain. by inversion H.
  - rewrite joinLines_cons, split_app. inversion H as [|? ? Hl Hr]; subst.
    by rewrite split_plain, IH.
Qed.

Lemma headingMatch_intro (name : jsstring) :
  name <> [] -> Forall (fun c => isLineTerminator c = false) name ->
  headingMatch (str "## " ++ name) = Some name.
Proof.
  intros Hne Hall. unfold headingMatch.
  assert (stripPrefix (str "## ") (str "## " ++ name) = Some name) as ->
    by (by apply stripPrefix_app).
  rewrite bool_decide_eq_false_2 by done. cbn [negb andb].
  assert (forallb (fun c => negb (isLineTerminator c)) name = true) as ->; [|done].
  apply forallb_forall. intros c Hc. apply list_elem_of_In in Hc.
  rewrite Forall_forall in Hall. by rewrite Hall.
Qed.

Lemma headingMatch_terminator (line : jsstring) (c : N) :
  c ∈ line -> isLineTerminator c = true -> headingMatch line = None.
Proof.
  intros Hc Ht. unfold headingMatch.
  destruct (stripPrefix (str "## ") line) as [rest|] eqn:Hp; [|done].
  apply stripPrefix_app in Hp. subst line.
  assert (Hrest : c ∈ rest).
  { apply elem_of_app in Hc as [Hc|Hc]; [|done].
    exfalso. vm_compute in Hc.
    repeat (apply elem_of_cons in Hc as [->|Hc]; [discriminate|]).
    by apply elem_of_nil in Hc. }
  destruct (forallb _ rest) eqn:Hf; [|by rewrite andb_false_r].
  rewrite forallb_forall in Hf. apply list_elem_of_In in Hrest.
  apply Hf in Hrest. by rewrite Ht in Hrest.
Qed.

Lemma takeWhile_app_stop {A} (p : A -> bool) (a : list A) (x : A) (r : list A) :
  Forall (fun y => p y = true) a -> p x = false ->
  takeWhile p (a ++ x :: r) = a /\ dropWhile p (a ++ x :: r) = x :: r.
Proof.
  intros Ha Hx. induction Ha as [|y a Hy _ IH]; simpl.
  - by rewrite Hx.
  - rewrite Hy. destruct IH as [-> ->]. done.
Qed.

Lemma linkAt_intro (target rest : jsstring) :
  target <> [] -> 93 ∉ target ->
  linkAt (str "[[" ++ target ++ str "]]" ++ rest) = Some target.
Proof.
  intros Hne Hnot. unfold linkAt.
  assert (stripPrefix (str "[[") (str "[[" ++ target ++ str "]]" ++ rest)
          = Some (target ++ str "]]" ++ rest)) as -> by (by apply stripPrefix_app).
  destruct (takeWhile_app_stop notBracket target 93 (93 :: rest)) as [Ht Hd].
  { apply Forall_forall. intros c Hc. unfold notBracket.
    destruct (N.eqb_spec c 93) as [->|_]; done. }
  { reflexivity. }
  change (str "]]" ++ rest) with (93 :: 93 :: rest). rewrite Ht, Hd.
  by rewrite bool_decide_eq_false_2.
Qed.

Lemma renderCard_no_heading (target : jsstring) : headingMatch (renderCard target) = None.
Proof. reflexivity. Qed.

Lemma renderCard_link (target : jsstring) :
  target <> [] -> 93 ∉ target -> linkMatch (renderCard target) = Some target.
Proof.
  intros Hne Hnot. unfold renderCard.
  change (str "- [ ] [[" ++ target ++ str "]]")
    with (45 :: 32 :: 91 :: 32 :: 93 :: 32 :: (str "[[" ++ target ++ str "]]" ++ [])).
  do 6 (rewrite (fun c r => eq_refl : linkMatch (c :: r)
                   = match linkAt (c :: r) with Some t => Some t | None => linkMatch r end);
        match goal with |- context [linkAt (?c :: ?r)] =>
          change (linkAt (c :: r)) with (@None jsstring) end).
  destruct target as [|c t]; [done|].
  change (str "[[" ++ (c :: t) ++ str "]]" ++ []) with (91 :: (91 :: (c :: t) ++ str "]]" ++ [])).
  cbn [linkMatch].
  change (91 :: 91 :: (c :: t) ++ str "]]" ++ []) with (str "[[" ++ (c :: t) ++ str "]]" ++ []).
  by rewrite linkAt_intro.
Qed.

Lemma parseLines_cards (name : jsstring) (targets : list jsstring) (rest : list jsstring) :
  name <> [] -> Forall plainTarget targets ->
  parseLines (Some name) (map renderCard targets ++ rest)
  = map (fun target => Update target name) targets ++ parseLines (Some name) rest.
Proof.
  intros Hne. induction 1 as [|t targets (Ht & Hb & _) _ IH]; [reflexivity|].
  cbn [map app parseLines]. rewrite renderCard_no_heading.
  destruct name as [|c name]; [done|]. cbn [truthy].
  rewrite renderCard_link by done. by rewrite IH.
Qed.

Lemma parseLines_columns (b : list column) (cur : option jsstring) :
  Forall (fun c => plainName (colName c) /\ Forall plainTarget (cards c)) b ->
  parseLines cur (renderColumns b) = pairsOfColumns b.
Proof.
  intros H. revert cur. induction H as [|c b [(Hne & Htrim & Hterm) Hcards] _ IH]; intros cur.
  { reflexivity. }
  unfold renderColumns, pairsOfColumns in *. cbn [flat_map]. unfold renderColumn at 1.
  cbn [app parseLines]. rewrite headingMatch_intro by done. rewrite Htrim.
  rewrite parseLines_cards by done. by rewrite IH.
Qed.

Lemma renderColumns_no_newline (b : list column) :
  Forall (fun c => plainName (colName c) /\ Forall plainTarget (cards c)) b ->
  Forall (fun x => 10 ∉ x) (renderColumns b).
Proof.
  induction 1 as [|c b [(Hne & Htrim & Hterm) Hcards] _ IH]; [constructor|].
  unfold renderColumns. cbn [flat_map]. apply Forall_app. split; [|exact IH].
  unfold renderColumn. constructor.
  - intros [Hin|Hin]%elem_of_app.
    + vm_compute in Hin. repeat (apply elem_of_cons in Hin as [Hin|Hin]; [discriminate|]).
      by apply elem_of_nil in Hin.
    + rewrite Forall_forall in Hterm. by apply Hterm in Hin.
  - apply Forall_map. eapply Forall_impl; [exact Hcards|].
    intros t (_ & _ & Hnl). unfold renderCard. cbn.
    rewrite !not_elem_of_cons, not_elem_of_app, !not_elem_of_cons.
    repeat split; try done. by apply not_elem_of_nil.
Qed.

(** X1: a board written as text, with any heading-free preamble, then for
    each column a heading line and a task line per card, parses back to the
    cards of its columns, in order, when the names are non-empty, trimmed
    and free of line terminators and the targets are non-empty and free of
    closing brackets and line feeds. *)
Theorem rendered_board_parses_back (preamble : list jsstring) (b : list column) :
  Forall (fun l => headingMatch l = None /\ 10 ∉ l) preamble ->
  Forall (fun c => plainName (colName c) /\ Forall plainTarget (cards c)) b ->
  parseBoardContent (joinLines (preamble ++ renderColumns b)) = pairsOfColumns b.
Proof.
  intros Hpre Hb. unfold parseBoardContent.
  destruct (preamble ++ renderColumns b) as [|l r] eqn:E.
  - apply app_eq_nil in E as [-> E]. destruct b as [|c b]; [reflexivity|discriminate].
  - rewrite split_joinLines.
    + rewrite <- E. rewrite parseLines_before_heading.
      * by apply parseLines_columns.
      * eapply Forall_impl; [exact Hpre|]. by intros ? [? _].
    + rewrite <- E. apply Forall_app. split.
      * eapply Forall_impl; [exact Hpre|]. by intros ? [_ ?].
      * by apply renderColumns_no_newline.
Qed.

Lemma rendered_board_parses_back_witness :
  parseBoardContent
    (joinLines ([str "---"; str "kanban-plugin: basic"; str "---"]
                ++ renderColumns [Column (str "todo") [str "A"; str "B"];
                                  Column (str "done") [str "C"]]))
  = [Update (str "A") (str "todo"); Update (str "B") (str "todo");
     Update (str "C") (str "done")].
Proof.
  apply (rendered_board_parses_back
           [str "---"; str "kanban-plugin: basic"; str "---"]
           [Column (str "todo") [str "A"; str "B"]; Column (str "done") [str "C"]]).
  - repeat constructor; vm_compute; intros H;
      repeat (apply elem_of_cons in H as [H|H]; [discriminate|]); by apply elem_of_nil in H.
  - repeat constructor; try (vm_compute; discriminate); try (vm_compute; reflexivity);
      vm_compute; intros H;
      repeat (apply elem_of_cons in H as [H|H]; [discriminate|]); by apply elem_of_nil in H.
Defined.

Lemma split_crlf (lines : list jsstring) :
  Forall (fun l => 10 ∉ l) lines ->
  split 10 (flat_map (fun l => l ++ [13; 10]) lines) = map (fun l => l ++ [13]) lines ++ [[]].
Proof.
  induction 1 as [|l lines Hl _ IH]; [reflexivity|].
  cbn [flat_map map app].
  replace ((l ++ [13; 10]) ++ flat_map (fun l => l ++ [13; 10]) lines)
    with ((l ++ [13]) ++ 10 :: flat_map (fun l => l ++ [13; 10]) lines)
    by (by rewrite <- !app_assoc).
  rewrite split_app, IH, split_plain; [done|].
  rewrite not_elem_of_app, not_elem_of_cons. repeat split; try done. apply not_elem_of_nil.
Qed.

(** X2: a board whose lines all end in carriage return and line feed gives
    no pair at all: the carriage return left at the end of each line keeps
    the heading pattern from matching, so no column is ever opened. *)
Theorem crlf_board_gives_no_pairs (lines : list jsstring) :
  Forall (fun l => 10 ∉ l) lines ->
  parseBoardContent (flat_map (fun l => l ++ [13; 10]) lines) = [].
Proof.
  intros H. unfold parseBoardContent. rewrite (split_crlf _ H).
  rewrite <- (app_nil_r (map _ lines ++ [[]])).
  apply (parseLines_before_heading _ []).
  apply Forall_app. split; [|by repeat constructor].
  apply Forall_map, Forall_forall. intros l _.
  apply (headingMatch_terminator _ 13); [|reflexivity].
  apply elem_of_app. right. apply list_elem_of_here.
Qed.

Lemma crlf_board_gives_no_pairs_witness :
  parseBoardContent (str "## todo" ++ [13; 10] ++ str "- [[A]]" ++ [13; 10]) = [].
Proof.
  apply (crlf_board_gives_no_pairs [str "## todo"; str "- [[A]]"]).
  repeat constructor; vm_compute; intros H;
    repeat (apply elem_of_cons in H as [H|H]; [discriminate|]); by apply elem_of_nil in H.
Defined.

Lemma parseLines_app (a b : list jsstring) (cur : option jsstring) :
  parseLines cur (a ++ b) = parseLines cur a ++ parseLines (columnFrom cur a) b.
Proof.
  revert cur. induction a as [|line a IH]; intros cur; [reflexivity|].
  cbn [app parseLines columnFrom foldl].
  destruct (headingMatch line) as [cap|]; [apply IH|].
  destruct (truthy cur); [|apply IH].
  destruct (linkMatch line), cur; try apply IH.
  cbn [app]. f_equal. apply IH.
Qed.

Lemma parseLines_closed (lines : list jsstring) :
  Forall (fun l => headingMatch l = None) lines -> parseLines (Some []) lines = [].
Proof. induction 1 as [|line lines Hh _ IH]; simpl; [done|]. by rewrite Hh. Qed.

(** X3: a heading line whose text is only white space opens no column, it
    closes the one that was open: the link lines after it, up to the next
    heading, give no pair. *)
Theorem blank_heading_closes_column (before line cap after : jsstring) :
  headingMatch line = Some cap ->
  trim cap = [] ->
  Forall (fun l => headingMatch l = None) (split 10 after) ->
  parseBoardContent (before ++ 10 :: line ++ 10 :: after) = parseBoardContent before.
Proof.
  intros Hh Ht Hafter. unfold parseBoardContent.
  assert (Hnl : 10 ∉ line).
  { intros Hin. by rewrite (headingMatch_terminator _ 10 Hin eq_refl) in Hh. }
  rewrite !split_app, (split_plain _ _ Hnl), parseLines_app.
  cbn [app parseLines]. rewrite Hh, Ht, parseLines_closed by done.
  by rewrite app_nil_r.
Qed.

Lemma blank_heading_closes_column_witness :
  parseBoardContent ((str "## todo" ++ 10 :: str "- [[A]]")
                     ++ 10 :: str "##   " ++ 10 :: str "- [[B]]")
  = [Update (str "A") (str "todo")].
Proof.
  rewrite (blank_heading_closes_column _ (str "##   ") (str "  ") (str "- [[B]]")).
  - vm_compute. reflexivity.
  - vm_compute. reflexivity.
  - vm_compute. reflexivity.
  - vm_compute. repeat constructor.
Defined.

(** ** Board index *)

Lemma index_fold (v : Vault) (l : list (N * jsstring)) (index : gset jsstring) (path : jsstring) :
  path ∈ foldl (fun (index : gset jsstring) fp =>
                  if hasBoardMarker v fp.1 then {[ fp.2 ]} ∪ index else index) index l
  <-> path ∈ index \/ exists file, (file, path) ∈ l /\ hasBoardMarker v file = true.
Proof.
  revert index. induction l as [|[f q] l IH]; intros index; cbn [foldl].
  - split; [by left|]. intros [H|(file & H & _)]; [done|]. by apply elem_of_nil in H.
  - rewrite IH. cbn [fst snd]. split.
    + intros [H|(file & Hin & Hm)].
      * destruct (hasBoardMarker v f) eqn:Hf; [|by left].
        apply elem_of_union in H as [->%elem_of_singleton|H]; [|by left].
        right. exists f. split; [apply list_elem_of_here | done].
      * right. exists file. split; [by apply list_elem_of_further | done].
    + intros [H|(file & Hin & Hm)].
      * left. destruct (hasBoardMarker v f); [|done]. apply elem_of_union. by right.
      * apply elem_of_cons in Hin as [[= -> ->]|Hin].
        -- left. rewrite Hm. apply elem_of_union. left. by apply elem_of_singleton.
        -- right. by exists file.
Qed.

(** X4: after [indexBoards] a path is in the index exactly when some file
    at that path ends in [.md] and its frontmatter holds a truthy
    [kanban-plugin]; what the index held before plays no part.  So, with the
    flag clear, a [modify] event for a file starts a run exactly when a
    marked markdown file has that file's path. *)
Theorem index_holds_the_marked_files (p : Plugin) :
  (forall path,
      path ∈ boardPaths (indexBoards p)
      <-> exists file, paths (vault p) !! file = Some path
                       /\ endsWith path (str ".md") = true
                       /\ hasBoardMarker (vault p) file = true)
  /\ (forall f,
      onModify (indexBoards p) (AFile f) = Some f
      <-> isUpdating p = false
          /\ exists path file, paths (vault p) !! f = Some path
                               /\ paths (vault p) !! file = Some path
                               /\ endsWith path (str ".md") = true
                               /\ hasBoardMarker (vault p) file = true).
Proof.
  assert (Hidx : forall path,
      path ∈ boardPaths (indexBoards p)
      <-> exists file, paths (vault p) !! file = Some path
                       /\ endsWith path (str ".md") = true
                       /\ hasBoardMarker (vault p) file = true).
  { intros path. unfold indexBoards. cbn [boardPaths]. rewrite index_fold.
    unfold getMarkdownFiles. split.
    - intros [H|(file & Hin & Hm)]; [by apply not_elem_of_empty in H|].
      apply list_elem_of_In, filter_In in Hin as [Hin Hmd].
      apply list_elem_of_In, elem_of_map_to_list in Hin. by exists file.
    - intros (file & Hp & Hmd & Hm). right. exists file. split; [|done].
      apply list_elem_of_In, filter_In. split; [|done].
      by apply list_elem_of_In, elem_of_map_to_list. }
  split; [exact Hidx|].
  intros f. unfold onModify.
  change (isUpdating (indexBoards p)) with (isUpdating p).
  change (vault (indexBoards p)) with (vault p).
  destruct (isUpdating p); [split; [done | by intros [? _]]|].
  destruct (paths (vault p) !! f) as [path|] eqn:Hp.
  - case_bool_decide as Hin.
    + split; [|done]. intros _. split; [done|]. apply Hidx in Hin as (file & ? & ? & ?).
      by exists path, file.
    + split; [done|]. intros (_ & path' & file & [= <-] & H1 & H2 & H3).
      exfalso. apply Hin, Hidx. by exists file.
  - split; [done|]. by intros (_ & ? & ? & ? & _).
Qed.

Lemma index_holds_the_marked_files_witness :
  boardPaths (indexBoards (MkPlugin false {[ str "old.md" ]} indexVault)) = {[ str "board.md" ]}.
Proof.
  apply set_eq. intros path.
  destruct (index_holds_the_marked_files (MkPlugin false {[ str "old.md" ]} indexVault))
    as [H _].
  rewrite H, elem_of_singleton. split.
  - intros (file & Hp & Hmd & Hm). cbn [vault] in *.
    assert (Hin : (file, path) ∈ map_to_list (paths indexVault))
      by (by apply elem_of_map_to_list).
    vm_compute in Hin.
    repeat (apply elem_of_cons in Hin as [[= -> ->]|Hin];
            [try reflexivity; vm_compute in Hmd; try discriminate;
             vm_compute in Hm; discriminate|]).
    by apply elem_of_nil in Hin.
  - intros ->. exists 10. vm_compute. repeat split; reflexivity.
Defined.

(** ** Placement: what a move keeps *)

Lemma basename_notSlash (path : jsstring) :
  Forall (fun c => notSlash c = true) (basename path).
Proof. unfold basename. apply Forall_reverse, takeWhile_all. Qed.

Lemma dirname_basename_join (d name : jsstring) :
  Forall (fun c => notSlash c = true) name ->
  dirname (d ++ 47 :: name) = d /\ basename (d ++ 47 :: name) = name.
Proof.
  intros Hn. unfold dirname, basename.
  rewrite reverse_app, reverse_cons, <- app_assoc. cbn [app].
  destruct (takeWhile_app_stop notSlash (reverse name) 47 (reverse d)) as [Ht Hd];
    [by apply Forall_reverse | reflexivity |].
  rewrite Ht, Hd. by rewrite !reverse_involutive.
Qed.

Lemma fileName_notSlash (v : Vault) (file : N) :
  Forall (fun c => notSlash c = true) (fileName v file).
Proof.
  unfold fileName. destruct (paths v !! file); simpl; [apply basename_notSlash | constructor].
Qed.

Lemma keepsFiles_same (v v' : Vault) :
  paths v' = paths v -> folders v ⊆ folders v' -> keepsFiles v v'.
Proof.
  intros Hp Hf. unfold keepsFiles, pathsInjective, fileName. rewrite Hp. by repeat split.
Qed.

Lemma keepsFiles_trans (a b c : Vault) : keepsFiles a b -> keepsFiles b c -> keepsFiles a c.
Proof.
  intros (S1 & N1 & F1 & I1) (S2 & N2 & F2 & I2). repeat split.
  - intros H. by apply S1, S2.
  - intros H. by apply S2, S1.
  - intros f. by rewrite N2, N1.
  - by etrans.
  - auto.
Qed.

Lemma keepsFiles_moved (v v' : Vault) (file : N) (d : jsstring) :
  is_Some (paths v !! file) ->
  (d ++ 47 :: fileName v file) ∉ (map_img (paths v) : gset jsstring) ->
  paths v' = <[file := d ++ 47 :: fileName v file]> (paths v) ->
  folders v ⊆ folders v' ->
  keepsFiles v v'.
Proof.
  intros Hsome Hfree Hp Hf. unfold keepsFiles. repeat split; try done.
  - rewrite Hp. intros H. destruct (decide (f = file)) as [->|Hne]; [done|].
    by rewrite lookup_insert_ne in H.
  - rewrite Hp. intros H. destruct (decide (f = file)) as [->|Hne].
    + rewrite lookup_insert_eq. eauto.
    + by rewrite lookup_insert_ne.
  - intros f. unfold fileName at 1. rewrite Hp.
    destruct (decide (f = file)) as [->|Hne].
    + rewrite lookup_insert_eq. simpl.
      by destruct (dirname_basename_join d _ (fileName_notSlash v file)).
    + by rewrite lookup_insert_ne.
  - intros Hinj f g path. rewrite Hp.
    destruct (decide (f = file)) as [->|Hf'], (decide (g = file)) as [->|Hg'];
      rewrite ?lookup_insert_eq, ?lookup_insert_ne by done; try done.
    + intros [= <-] Hg. exfalso. apply Hfree, elem_of_map_img. eauto.
    + intros Hf'' [= <-]. exfalso. apply Hfree, elem_of_map_img. eauto.
    + apply Hinj.
Qed.

Lemma getAbstractFileByPath_false (v : Vault) (path : jsstring) :
  getAbstractFileByPath v path = false <->
  (path ∉ folders v) /\ (path ∉ (map_img (paths v) : gset jsstring)).
Proof.
  unfold getAbstractFileByPath. rewrite orb_false_iff, !bool_decide_eq_false. done.
Qed.

(** What [renameFile] does to the paths, for a file that exists. *)
Lemma renameFile_paths (file : N) (newPath : jsstring) (v : Vault) :
  let r := renameFile file newPath v in
  folders r.2 = folders v
  /\ (getAbstractFileByPath v newPath = true /\ r.1 = Thrown /\ paths r.2 = paths v
      \/ getAbstractFileByPath v newPath = false /\ r.1 = Returned tt
         /\ paths r.2 = <[file := newPath]> (paths v)).
Proof.
  unfold renameFile.
  change (getAbstractFileByPath (record (RenameFile file newPath) v) newPath)
    with (getAbstractFileByPath v newPath).
  destruct (getAbstractFileByPath v newPath); simpl; split; auto.
Qed.

Lemma archiveNote_active_run (v : Vault) (file : N) (dir : jsstring) :
  parentDir v file = Some dir -> isActiveLocation dir ->
  exists w, paths w = paths v
    /\ (folders w = folders v
        \/ getAbstractFileByPath v (dir ++ str "/archive") = false
           /\ folders w = {[ dir ++ str "/archive" ]} ∪ folders v)
    /\ archiveNote file v
       = renameFile file ((dir ++ str "/archive") ++ 47 :: fileName v file) w.
Proof.
  intros Hp Ha. rewrite (archiveNote_active _ _ _ Hp Ha).
  unfold mbind, M_bind, bind, mret, M_ret, ret.
  destruct (getAbstractFileByPath v (dir ++ str "/archive")) eqn:Hex.
  - exists v. auto.
  - unfold createFolder.
    change (getAbstractFileByPath (record (CreateFolder (dir ++ str "/archive")) v)
              (dir ++ str "/archive"))
      with (getAbstractFileByPath v (dir ++ str "/archive")).
    rewrite Hex. eexists. split; [|split; [right; split; [done|]|reflexivity]]; reflexivity.
Qed.

Lemma resolvePlacement_paths (file : N) (status : jsstring) (v : Vault) :
  let v' := (resolvePlacement file status v).2 in
  folders v ⊆ folders v'
  /\ (paths v' = paths v
      \/ exists d, is_Some (paths v !! file)
           /\ ((d ++ 47 :: fileName v file) ∉ (map_img (paths v) : gset jsstring))
           /\ paths v' = <[file := d ++ 47 :: fileName v file]> (paths v)).
Proof.
  assert (Hsome : forall dir, parentDir v file = Some dir -> is_Some (paths v !! file)).
  { unfold parentDir. destruct (paths v !! file); [eauto | discriminate]. }
  unfold resolvePlacement. destruct (isArchiveStatus status).
  - destruct (parentDir v file) as [dir|] eqn:Hp.
    2:{ rewrite archiveNote_inactive; [simpl; split; [reflexivity | by left]|]. intros (? & ? & _); congruence. }
    destruct (negb (endsWith dir (str "/tasks")) && negb (bool_decide (dir = str "tasks")))
      eqn:E.
    { rewrite archiveNote_inactive; [simpl; split; [reflexivity | by left]|].
      intros (d & Hd & Ha). rewrite Hp in Hd. injection Hd as <-.
      apply active_test in Ha. congruence. }
    apply active_test in E.
    destruct (archiveNote_active_run _ _ _ Hp E) as (w & Hw & Hf & ->).
    destruct (renameFile_paths file ((dir ++ str "/archive") ++ 47 :: fileName v file) w)
      as (Hfold & [(_ & _ & Hpaths)|(Hfree & _ & Hpaths)]).
    + split; [rewrite Hfold; destruct Hf as [->|[_ ->]];
             [reflexivity | apply union_subseteq_r]|].
      left. by rewrite Hpaths.
    + split; [rewrite Hfold; destruct Hf as [->|[_ ->]];
             [reflexivity | apply union_subseteq_r]|].
      right. exists (dir ++ str "/archive"). split; [eauto|].
      apply getAbstractFileByPath_false in Hfree as [_ Hfree].
      rewrite Hw in Hfree, Hpaths. done.
  - destruct (parentDir v file) as [dir|] eqn:Hp.
    2:{ rewrite unarchiveNote_elsewhere; [simpl; split; [reflexivity | by left]|]. intros (? & ? & ? & _); congruence. }
    destruct (endsWith dir (str "/tasks/archive")) eqn:E.
    2:{ rewrite unarchiveNote_elsewhere; [simpl; split; [reflexivity | by left]|].
        intros (d & r & Hd & Hr). rewrite Hp in Hd. injection Hd as <-.
        assert (endsWith dir (str "/tasks/archive") = true) by (apply archive_test; eauto).
        congruence. }
    rewrite (unarchiveNote_archived _ _ _ Hp E).
    change (str "/" ++ fileName v file) with (47 :: fileName v file).
    destruct (renameFile_paths file (stripArchive dir ++ 47 :: fileName v file) v)
      as (Hfold & [(_ & _ & Hpaths)|(Hfree & _ & Hpaths)]).
    + split; [by rewrite Hfold|]. by left.
    + split; [by rewrite Hfold|]. right. exists (stripArchive dir). split; [eauto|].
      by apply getAbstractFileByPath_false in Hfree as [_ Hfree].
Qed.

Lemma resolvePlacement_keepsFiles (file : N) (status : jsstring) (v : Vault) :
  keepsFiles v (resolvePlacement file status v).2.
Proof.
  destruct (resolvePlacement_paths file status v) as (Hf & [Hp|(d & Hs & Hfree & Hp)]).
  - by apply keepsFiles_same.
  - by apply (keepsFiles_moved _ _ file d).
Qed.

Section FileFacts.

Variable settings : KSUSettings.

Lemma updateNote_moves (notePath columnName : jsstring) (v : Vault) :
  let v' := updateNote settings notePath columnName v in
  (paths v' = paths v /\ folders v' = folders v)
  \/ exists file, linkDest v !! notePath = Some file
       /\ paths v' = paths (resolvePlacement file (targetStatus columnName)
                              (written settings file columnName v)).2
       /\ folders v' = folders (resolvePlacement file (targetStatus columnName)
                                  (written settings file columnName v)).2.
Proof.
  intros v'. subst v'.
  destruct (linkDest v !! notePath) as [file|] eqn:H.
  2:{ left. by rewrite updateNote_unresolved. }
  destruct (needsUpdateOf settings v file columnName) eqn:Hn.
  2:{ left. by rewrite (updateNote_skip _ _ _ _ _ H Hn). }
  destruct (decide (file ∈ locked v)) as [Hl|Hl].
  - left. unfold updateNote. by rewrite (updateNote_locked _ _ _ _ _ H Hn Hl).
  - right. exists file. split; [done|]. unfold updateNote.
    rewrite (updateNote_writes _ _ _ _ _ H Hn Hl).
    by destruct (resolvePlacement _ _ _) as [[[]|] w].
Qed.

Lemma updateNote_keepsFiles (notePath columnName : jsstring) (v : Vault) :
  keepsFiles v (updateNote settings notePath columnName v).
Proof.
  destruct (updateNote_moves notePath columnName v) as [[Hp Hf]|(file & _ & Hp & Hf)].
  - apply keepsFiles_same; [done | by rewrite Hf].
  - eapply keepsFiles_trans.
    + apply (resolvePlacement_keepsFiles file (targetStatus columnName)
               (written settings file columnName v)).
    + apply keepsFiles_same; [done | by rewrite Hf].
Qed.

Lemma updateAll_keepsFiles (updates : list update) (v : Vault) :
  keepsFiles v (updateAll settings updates v).
Proof.
  revert v. induction updates as [|u rest IH]; intros v.
  - by apply keepsFiles_same.
  - eapply keepsFiles_trans; [apply updateNote_keepsFiles | apply IH].
Qed.

(** X5: whatever the board says, a run of [syncBoard] keeps the vault's
    files: the same files exist afterwards, each under the file name it had,
    no folder is gone, and if no two files shared a path before, none do
    after (a move onto a taken path is refused, never an overwrite). *)
Theorem sync_keeps_the_files (board : N) (p : Plugin) :
  keepsFiles (vault p) (vault (syncBoard settings board p)).
Proof.
  unfold syncBoard. destruct (text (vault p) !! board) as [content|].
  - case_bool_decide; [by apply keepsFiles_same|]. apply updateAll_keepsFiles.
  - by apply keepsFiles_same.
Qed.

(** X6: an update moves no file but the linked item: the path of every
    other file is what it was, and when the link does not resolve no path
    changes at all. *)
Theorem update_moves_only_the_item (notePath columnName : jsstring) (v : Vault) (other : N) :
  linkDest v !! notePath <> Some other ->
  paths (updateNote settings notePath columnName v) !! other = paths v !! other.
Proof.
  intros Hne.
  destruct (updateNote_moves notePath columnName v) as [[Hp _]|(file & Hl & Hp & _)].
  - by rewrite Hp.
  - rewrite Hp.
    destruct (resolvePlacement_paths file (targetStatus columnName)
                (written settings file columnName v)) as (_ & [Hq|(d & _ & _ & Hq)]).
    + by rewrite Hq.
    + rewrite Hq. simpl. rewrite lookup_insert_ne; [done|]. congruence.
Qed.

End FileFacts.

Lemma sync_keeps_the_files_witness :
  fileName (vault (syncBoard DEFAULT_SETTINGS 10 duplicateLinkPlugin)) 1 = str "x.md".
Proof.
  destruct (sync_keeps_the_files DEFAULT_SETTINGS 10 duplicateLinkPlugin) as (_ & Hn & _).
  rewrite Hn. vm_compute. reflexivity.
Defined.

Lemma update_moves_only_the_item_witness :
  paths (updateNote DEFAULT_SETTINGS (str "x") (str "done") collisionVault) !! 3
  = Some (str "notes/y.md").
Proof.
  rewrite (update_moves_only_the_item DEFAULT_SETTINGS (str "x") (str "done") collisionVault 3).
  - vm_compute. reflexivity.
  - vm_compute. discriminate.
Defined.

(** ** Placement: round trip and settling *)

Lemma archive_path_longer (d name : jsstring) :
  (d ++ str "/archive") ++ 47 :: name <> d ++ 47 :: name.
Proof.
  intros H. apply (f_equal length) in H. rewrite !length_app in H. simpl in H. lia.
Qed.

Lemma tasks_is_no_archive (r r' : jsstring) :
  r ++ str "/tasks" <> r' ++ str "/tasks/archive".
Proof.
  intros H. apply (f_equal reverse) in H. rewrite !reverse_app in H.
  vm_compute in H. discriminate.
Qed.

(** X7: an item in a [tasks] folder below the root that is archived and
    then given a status that is not archival is back at the path it had:
    the first placement moves it into [archive], the second moves it up
    again, provided the archive path is free and no other file or folder
    has the item's path. *)
Theorem archive_then_restore (v : Vault) (file : N) (r name archival other : jsstring) :
  paths v !! file = Some ((r ++ str "/tasks") ++ 47 :: name) ->
  Forall (fun c => notSlash c = true) name ->
  pathsInjective v ->
  (r ++ str "/tasks") ++ 47 :: name ∉ folders v ->
  getAbstractFileByPath v (((r ++ str "/tasks") ++ str "/archive") ++ 47 :: name) = false ->
  isArchiveStatus archival = true ->
  isArchiveStatus other = false ->
  let v1 := (resolvePlacement file archival v).2 in
  let v2 := (resolvePlacement file other v1).2 in
  paths v1 !! file = Some (((r ++ str "/tasks") ++ str "/archive") ++ 47 :: name)
  /\ paths v2 = paths v.
Proof.
  intros Hpath Hname Hinj Hnofolder Hfree Harch Hother v1 v2.
  set (dir := r ++ str "/tasks") in *.
  destruct (dirname_basename_join dir name Hname) as [Hdir Hbase].
  assert (Hp : parentDir v file = Some dir) by (unfold parentDir; by rewrite Hpath; simpl; rewrite Hdir).
  assert (Hn : fileName v file = name) by (unfold fileName; by rewrite Hpath; simpl; rewrite Hbase).
  assert (Ha : isActiveLocation dir) by (right; by exists r).
  destruct (archiveNote_active_run _ _ _ Hp Ha) as (w & Hw & Hf & Hrun).
  rewrite Hn in Hrun.
  set (np := (dir ++ str "/archive") ++ 47 :: name) in *.
  assert (Hfree_w : getAbstractFileByPath w np = false).
  { apply getAbstractFileByPath_false in Hfree as [Hf1 Hf2].
    apply getAbstractFileByPath_false. rewrite Hw. split; [|done].
    destruct Hf as [->|[_ ->]]; [done|].
    rewrite not_elem_of_union, not_elem_of_singleton. split; [|done].
    intros H. apply (f_equal length) in H. unfold np in H.
    rewrite !length_app in H. simpl in H. lia. }
  assert (Hv1 : v1 = (renameFile file np w).2).
  { subst v1. unfold resolvePlacement. by rewrite Harch, Hrun. }
  destruct (renameFile_paths file np w) as (Hfold1 & [(Ht & _)|(_ & _ & Hpaths1)]);
    [congruence|].
  rewrite <- Hv1, Hw in Hpaths1. rewrite <- Hv1 in Hfold1.
  split; [rewrite Hpaths1; apply lookup_insert_eq|].
  destruct (dirname_basename_join (dir ++ str "/archive") name Hname) as [Hdir1 Hbase1].
  fold np in Hdir1, Hbase1.
  assert (Hp1 : parentDir v1 file = Some (dir ++ str "/archive"))
    by (unfold parentDir; rewrite Hpaths1, lookup_insert_eq; simpl; by rewrite Hdir1).
  assert (Hn1 : fileName v1 file = name)
    by (unfold fileName; rewrite Hpaths1, lookup_insert_eq; simpl; by rewrite Hbase1).
  assert (He : endsWith (dir ++ str "/archive") (str "/tasks/archive") = true).
  { apply archive_test. exists r. unfold dir. by rewrite <- app_assoc. }
  assert (Hv2 : v2 = (renameFile file (dir ++ 47 :: name) v1).2).
  { subst v2. unfold resolvePlacement. rewrite Hother.
    rewrite (unarchiveNote_archived _ _ _ Hp1 He), stripArchive_app, Hn1. reflexivity. }
  assert (Hfree1 : getAbstractFileByPath v1 (dir ++ 47 :: name) = false).
  { apply getAbstractFileByPath_false. split.
    - rewrite Hfold1. destruct Hf as [->|[Hex ->]]; [done|].
      rewrite not_elem_of_union, not_elem_of_singleton. split; [|done].
      intros Heq. apply getAbstractFileByPath_false in Hex as [_ Hex].
      apply Hex, elem_of_map_img. exists file. by rewrite <- Heq.
    - rewrite Hpaths1. intros (g & Hg)%elem_of_map_img.
      destruct (decide (g = file)) as [->|Hne].
      + rewrite lookup_insert_eq in Hg. injection Hg as Hg.
        by apply archive_path_longer in Hg.
      + rewrite lookup_insert_ne in Hg by done. by apply Hne, (Hinj g file _ Hg). }
  destruct (renameFile_paths file (dir ++ 47 :: name) v1)
    as (_ & [(Ht & _)|(_ & _ & Hpaths2)]); [congruence|].
  rewrite Hv2, Hpaths2, Hpaths1, insert_insert_eq. by apply insert_id.
Qed.

Lemma archive_then_restore_witness :
  let v := itemAt (str "projects/tasks/x.md") [str "projects"; str "projects/tasks"] in
  paths (resolvePlacement 1 (str "in-progress") (resolvePlacement 1 (str "done") v).2).2
  = paths v.
Proof.
  intros v.
  apply (archive_then_restore v 1 (str "projects") (str "x.md") (str "done")
           (str "in-progress")).
  - vm_compute. reflexivity.
  - repeat constructor.
  - intros f g path Hf Hg.
    assert (Hf' : (f, path) ∈ map_to_list (paths v)) by (by apply elem_of_map_to_list).
    assert (Hg' : (g, path) ∈ map_to_list (paths v)) by (by apply elem_of_map_to_list).
    vm_compute in Hf', Hg'.
    apply list_elem_of_singleton in Hf', Hg'. congruence.
  - vm_compute. intros H. discriminate H.
  - vm_compute. reflexivity.
  - vm_compute. reflexivity.
  - vm_compute. reflexivity.
Defined.

(** X8: a placement that returns has settled the item: the same placement
    run once more on the result does nothing, as an archived item is in no
    active location and a restored item in no archive. *)
Theorem placement_settles (file : N) (status : jsstring) (v v' : Vault) :
  resolvePlacement file status v = (Returned tt, v') ->
  resolvePlacement file status v' = (Returned tt, v').
Proof.
  unfold resolvePlacement. destruct (isArchiveStatus status).
  - destruct (parentDir v file) as [dir|] eqn:Hp.
    2:{ rewrite archiveNote_inactive by (intros (? & ? & _); congruence).
        intros [= <-]. apply archiveNote_inactive. intros (? & ? & _); congruence. }
    destruct (negb (endsWith dir (str "/tasks")) && negb (bool_decide (dir = str "tasks")))
      eqn:E.
    { assert (Hin : ~ (exists d, parentDir v file = Some d /\ isActiveLocation d)).
      { intros (d & Hd & Ha). rewrite Hp in Hd. injection Hd as <-.
        apply active_test in Ha. congruence. }
      rewrite archiveNote_inactive by done. intros [= <-]. by apply archiveNote_inactive. }
    apply active_test in E.
    destruct (archiveNote_active_run _ _ _ Hp E) as (w & Hw & _ & ->).
    destruct (renameFile_paths file ((dir ++ str "/archive") ++ 47 :: fileName v file) w)
      as (_ & [(_ & Ht & _)|(_ & _ & Hpaths)]).
    { intros H. rewrite H in Ht. discriminate. }
    intros H. rewrite H in Hpaths. cbn [snd] in Hpaths.
    apply archiveNote_inactive. intros (d & Hd & Ha).
    unfold parentDir in Hd. rewrite Hpaths, lookup_insert_eq in Hd.
    cbn [fmap option_fmap option_map] in Hd.
    destruct (dirname_basename_join (dir ++ str "/archive") _ (fileName_notSlash v file))
      as [Hdir _].
    rewrite Hdir in Hd. injection Hd as <-.
    apply (archive_not_active (dir ++ str "/archive")); [by exists dir | done].
  - destruct (parentDir v file) as [dir|] eqn:Hp.
    2:{ rewrite unarchiveNote_elsewhere by (intros (? & ? & ? & _); congruence).
        intros [= <-]. apply unarchiveNote_elsewhere. intros (? & ? & ? & _); congruence. }
    destruct (endsWith dir (str "/tasks/archive")) eqn:E.
    2:{ assert (Hout : ~ (exists d r, parentDir v file = Some d
                                     /\ d = r ++ str "/tasks/archive")).
        { intros (d & r & Hd & Hr). rewrite Hp in Hd. injection Hd as <-.
          assert (endsWith dir (str "/tasks/archive") = true) by (apply archive_test; eauto).
          congruence. }
        rewrite unarchiveNote_elsewhere by done. intros [= <-].
        by apply unarchiveNote_elsewhere. }
    rewrite (unarchiveNote_archived _ _ _ Hp E).
    change (str "/" ++ fileName v file) with (47 :: fileName v file).
    destruct (renameFile_paths file (stripArchive dir ++ 47 :: fileName v file) v)
      as (_ & [(_ & Ht & _)|(_ & _ & Hpaths)]).
    { intros H. rewrite H in Ht. discriminate. }
    intros H. rewrite H in Hpaths. cbn [snd] in Hpaths.
    apply unarchiveNote_elsewhere. intros (d & r' & Hd & Hr).
    unfold parentDir in Hd. rewrite Hpaths, lookup_insert_eq in Hd.
    cbn [fmap option_fmap option_map] in Hd.
    destruct (dirname_basename_join (stripArchive dir) _ (fileName_notSlash v file))
      as [Hdir _].
    rewrite Hdir in Hd. injection Hd as <-.
    apply archive_test in E as [r ->].
    change (str "/tasks/archive") with (str "/tasks" ++ str "/archive") in Hr.
    rewrite (app_assoc r (str "/tasks") (str "/archive")), stripArchive_app in Hr.
    by apply tasks_is_no_archive in Hr.
Qed.

Lemma placement_settles_witness :
  let v := itemAt (str "projects/tasks/x.md") [str "projects"; str "projects/tasks"] in
  let v' := (resolvePlacement 1 (str "done") v).2 in
  resolvePlacement 1 (str "done") v' = (Returned tt, v').
Proof.
  intros v v'.
  apply (placement_settles 1 (str "done") v v'). vm_compute. reflexivity.
Defined.

(** X10: the placement called after a write archives exactly under the
    columns named [done] and [archive]: a quadrant column, whose status is
    [backlog], never does, and no other column name does. *)
Theorem only_done_and_archive_archive (columnName : jsstring) :
  isArchiveStatus (targetStatus columnName) = true
  <-> columnName = str "done" \/ columnName = str "archive".
Proof.
  unfold targetStatus, isArchiveStatus, ARCHIVE_STATUSES.
  destruct (isQuadrant columnName) eqn:Hq.
  - split; [vm_compute; discriminate|].
    intros [->| ->]; vm_compute in Hq; discriminate.
  - rewrite bool_decide_eq_true, !elem_of_cons, elem_of_nil. tauto.
Qed.

(** ** The run as a whole *)

Section RunFacts.

Variable settings : KSUSettings.

(** X11: a run that is alone in flight ends as [syncBoard] run in one go,
    whatever [modify] events the host delivers between its pairs: the read
    enters the loop, the events of the schedule are all ignored, and after
    the last pair the plugin is the one [syncBoard] gives, with no run left
    in flight.  A board without pairs ends the run at the read. *)
Theorem lone_run_is_syncBoard (board : N) (p : Plugin) (content : jsstring) :
  text (vault p) !! board = Some content ->
  (parseBoardContent content = [] ->
   drain settings (MkHost p [Reading board]) [[]]
   = MkHost (syncBoard settings board p) [])
  /\ (parseBoardContent content <> [] ->
      forall schedule, length schedule = S (length (parseBoardContent content)) ->
        drain settings (MkHost p [Reading board]) ([] :: schedule)
        = MkHost (syncBoard settings board p) []).
Proof.
  intros Ht. split.
  - intros He. rewrite (syncBoard_no_pairs _ _ _ _ Ht He).
    unfold drain. simpl. rewrite Ht, He. reflexivity.
  - intros He schedule Hlen. rewrite (syncBoard_pairs _ _ _ _ Ht He).
    change (drain settings (MkHost p [Reading board]) ([] :: schedule))
      with (drain settings (step settings (MkHost p [Reading board]) (Resume 0)) schedule).
    assert (step settings (MkHost p [Reading board]) (Resume 0)
            = MkHost (MkPlugin true (boardPaths p) (vault p))
                     [Updating (parseBoardContent content)]) as ->.
    { simpl. rewrite Ht. by rewrite bool_decide_eq_false_2. }
    by rewrite (drain_loop settings (parseBoardContent content)).
Qed.

(** X12: links that resolve to no file are skipped without a trace: a run
    on a board none of whose links resolves leaves the vault as it was, with
    no host call and no error reported. *)
Theorem unresolved_links_are_skipped (board : N) (p : Plugin) :
  (forall u, u ∈ pairsOf (vault p) board -> linkDest (vault p) !! linkPath u = None) ->
  vault (syncBoard settings board p) = vault p.
Proof.
  unfold pairsOf, syncBoard. destruct (text (vault p) !! board) as [content|]; [|done].
  intros H. case_bool_decide; [done|]. cbn [vault].
  generalize dependent (parseBoardContent content). intros updates H _.
  induction updates as [|u rest IH]; [done|].
  unfold updateAll in *. cbn [foldl].
  rewrite updateNote_unresolved by apply H, list_elem_of_here.
  apply IH. intros u' Hu'. by apply H, list_elem_of_further.
Qed.

(** X13: a board none of whose lines is a heading leaves the plugin
    exactly as it was: [syncBoard] returns before it sets the flag or looks
    at any item. *)
Theorem board_without_headings_is_left_alone (board : N) (p : Plugin) (content : jsstring) :
  text (vault p) !! board = Some content ->
  Forall (fun l => headingMatch l = None) (split 10 content) ->
  syncBoard settings board p = p.
Proof.
  intros Ht Hh. apply (syncBoard_no_pairs _ _ _ content Ht).
  unfold parseBoardContent. rewrite <- (app_nil_r (split 10 content)).
  by apply (parseLines_before_heading _ []).
Qed.

(** X14: an item whose status field is missing, [null] or anything but a
    string always needs an update, whatever the column. *)
Theorem status_that_is_no_string_needs_update (v : Vault) (file : N) (columnName : jsstring) :
  (forall s, field v file (statusPropertyName settings) <> Some (VStr s)) ->
  needsUpdateOf settings v file columnName = true.
Proof.
  intros H. unfold needsUpdateOf, needsUpdate.
  assert (strictEq (cached v file (statusPropertyName settings))
            (VStr (targetStatus columnName)) = false) as ->.
  { unfold cached, getProperty. unfold field in H.
    destruct (frontmatter v !! file) as [fm|]; simpl in *; [|done].
    destruct (fm !! statusPropertyName settings) as [[]|]; try reflexivity.
    - by destruct (H s).
    - by case_bool_decide. }
  by destruct (isQuadrant columnName).
Qed.

End RunFacts.

Lemma lone_run_is_syncBoard_witness :
  drain DEFAULT_SETTINGS (MkHost (plugin twoBoards) [Reading 11])
        [[]; [AFile 10]; [AFile 10; AFile 11]; []]
  = MkHost (syncBoard DEFAULT_SETTINGS 11 (plugin twoBoards)) [].
Proof.
  destruct (lone_run_is_syncBoard DEFAULT_SETTINGS 11 (plugin twoBoards)
              (str "## todo" ++ 10 :: str "- [[y]]" ++ 10 :: str "- [[z]]")) as [_ H].
  - vm_compute. reflexivity.
  - apply H.
    + vm_compute. discriminate.
    + vm_compute. reflexivity.
Defined.

Lemma unresolved_links_are_skipped_witness :
  let p := boardPlugin (str "## todo" ++ 10 :: str "- [[nobody]]") [] in
  vault (syncBoard DEFAULT_SETTINGS 10 p) = vault p.
Proof.
  intros p. apply (unresolved_links_are_skipped DEFAULT_SETTINGS 10 p).
  assert (Hpairs : pairsOf (vault p) 10 = [Update (str "nobody") (str "todo")])
    by (vm_compute; reflexivity).
  rewrite Hpairs. intros u ->%list_elem_of_singleton. vm_compute. reflexivity.
Defined.

Lemma board_without_headings_is_left_alone_witness :
  let p := boardPlugin (str "# Title" ++ 10 :: str "- [[x]]") [] in
  syncBoard DEFAULT_SETTINGS 10 p = p.
Proof.
  intros p.
  apply (board_without_headings_is_left_alone DEFAULT_SETTINGS 10 p
           (str "# Title" ++ 10 :: str "- [[x]]")).
  - vm_compute. reflexivity.
  - vm_compute. repeat constructor.
Defined.

Lemma status_that_is_no_string_needs_update_witness :
  needsUpdateOf DEFAULT_SETTINGS collisionVault 1 (str "todo") = true.
Proof.
  apply (status_that_is_no_string_needs_update DEFAULT_SETTINGS collisionVault 1 (str "todo")).
  intros s. vm_compute. discriminate.
Defined.

(** X15: with a status that is not archival the placement calls
    [renameFile] exactly when the item's parent path ends in
    [/tasks/archive]; the destination is the [tasks] folder above, under the
    item's own file name, and the item is there afterwards when that path
    was free; in every other location nothing is done. *)
Theorem restoring_placement (v : Vault) (file : N) (status : jsstring) :
  isArchiveStatus status = false ->
  let r := resolvePlacement file status v in
  let archived := exists dir a, parentDir v file = Some dir /\ dir = a ++ str "/tasks/archive" in
  ((exists p, RenameFile file p ∈ newCalls v r.2) <-> archived)
  /\ (forall a, parentDir v file = Some (a ++ str "/tasks/archive") ->
        let newPath := (a ++ str "/tasks") ++ str "/" ++ fileName v file in
        newCalls v r.2 = [RenameFile file newPath]
        /\ (getAbstractFileByPath v newPath = false ->
            r.1 = Returned tt /\ paths r.2 !! file = Some newPath))
  /\ (~ archived -> r = (Returned tt, v)).
Proof.
  intros Hst r archived. subst r.
  assert (resolvePlacement file status v = unarchiveNote file v) as ->
    by (unfold resolvePlacement; by rewrite Hst).
  split; [|split].
  - split.
    + intros [p Hp].
      destruct (parentDir v file) as [dir|] eqn:Hd.
      * destruct (endsWith dir (str "/tasks/archive")) eqn:E.
        -- apply archive_test in E as [a Ha]. by exists dir, a.
        -- rewrite unarchiveNote_elsewhere in Hp.
           ++ rewrite newCalls_refl in Hp. by apply elem_of_nil in Hp.
           ++ intros (d & a & Hd' & Ha). rewrite Hd in Hd'. injection Hd' as <-.
              assert (endsWith dir (str "/tasks/archive") = true)
                by (apply archive_test; eauto).
              congruence.
      * rewrite unarchiveNote_elsewhere in Hp.
        -- rewrite newCalls_refl in Hp. by apply elem_of_nil in Hp.
        -- intros (d & a & Hd' & _). congruence.
    + intros (dir & a & Hd & ->).
      destruct (unarchiveNote_moves _ _ _ Hd) as [Hc _].
      eexists. rewrite Hc. apply list_elem_of_here.
  - intros a Hd. apply (unarchiveNote_moves _ _ _ Hd).
  - apply unarchiveNote_elsewhere.
Qed.

Lemma restoring_placement_witness :
  let v := itemAt (str "projects/tasks/archive/x.md")
             [str "projects"; str "projects/tasks"; str "projects/tasks/archive"] in
  paths (resolvePlacement 1 (str "in-progress") v).2 !! 1 = Some (str "projects/tasks/x.md").
Proof.
  intros v.
  assert (Hst : isArchiveStatus (str "in-progress") = false) by (vm_compute; reflexivity).
  destruct (restoring_placement v 1 (str "in-progress") Hst) as (_ & H & _).
  assert (Hd : parentDir v 1 = Some (str "projects" ++ str "/tasks/archive"))
    by (vm_compute; reflexivity).
  destruct (H _ Hd) as (_ & Hm). apply Hm. vm_compute. reflexivity.
Defined.
